(** * deno-random-utils: the logger ([logger.ts]) and the directory walker
      ([sub_dir.ts])

    A shallow embedding of the [Log] class of [logger.ts] and of the console
    window formatter [custom], with the properties of the log writer
    ([writeLog], [closeLogs]), of the facade ([createNewLog] and the level
    methods) and of the formatter.

    Conventions of the embedding.
    - A [Uint8Array] is a list of bytes, a path is the list of its segments.
    - What the code reads from its environment is an input of the model:
      the date partition [Day().format("YYYY-MM-DD")], the time stamp, the
      outcome of every file-system operation, the caller tag.
    - [writeLog] is an [async] function.  It is embedded in small steps: a call
      runs up to its next [await], where it is [Suspended] with the operation
      it waits for; [resume] runs it from there once the operation has
      completed.  Calls that overlap are interleaved by [step].
    - [fileTimeout] is a whole number of milliseconds.  The id of a timeout is
      a positive number, so it is truthy.  A write that succeeds writes the
      whole buffer. *)

From Stdlib Require Import ZArith Lia Bool Ascii.
From stdpp Require Import gmap strings list fin_maps pretty.

Set Warnings "-register-all".
Local Open Scope Z_scope.
Local Open Scope stdpp_scope.

(** ** The string methods the logger calls *)

Module Str.

Fixpoint startsWith (s p : string) : bool :=
  match p, s with
  | EmptyString, _ => true
  | String a p', String b s' => if Ascii.eqb a b then startsWith s' p' else false
  | String _ _, EmptyString => false
  end.

Fixpoint endsWith (s p : string) : bool :=
  String.eqb s p ||
  match s with
  | EmptyString => false
  | String _ s' => endsWith s' p
  end.

Fixpoint includes (s p : string) : bool :=
  startsWith s p ||
  match s with
  | EmptyString => false
  | String _ s' => includes s' p
  end.

Fixpoint drop (n : nat) (s : string) : string :=
  match n, s with
  | S n', String _ s' => drop n' s'
  | _, _ => s
  end.

(** [s.replace(p, r)] for a string pattern: the first occurrence only.  The
    [$] patterns of the replacement text are not interpreted. *)
Fixpoint replace (s p r : string) : string :=
  if startsWith s p then r +:+ drop (String.length p) s
  else match s with
       | EmptyString => EmptyString
       | String c s' => String c (replace s' p r)
       end.

(** [s.replaceAll(p, r)] for a pattern that is not empty; [skip] counts the
    characters of a match still to be passed over. *)
Fixpoint replaceAll_from (skip : nat) (s p r : string) : string :=
  match s with
  | EmptyString => EmptyString
  | String c s' =>
      match skip with
      | S k => replaceAll_from k s' p r
      | O => if startsWith s p
             then r +:+ replaceAll_from (Nat.pred (String.length p)) s' p r
             else String c (replaceAll_from O s' p r)
      end
  end.

Definition replaceAll (s p r : string) : string := replaceAll_from O s p r.

(** [s.split(c)] for a separator of one character. *)
Fixpoint split (c : ascii) (s : string) : list string :=
  match s with
  | EmptyString => [EmptyString]
  | String a s' =>
      if Ascii.eqb a c then EmptyString :: split c s'
      else match split c s' with
           | h :: t => String a h :: t
           | [] => [String a EmptyString]
           end
  end.

(** [l.join(sep)]. *)
Definition join (sep : string) (l : list string) : string := String.concat sep l.

(** [s.charAt(i)]. *)
Definition charAt (i : nat) (s : string) : string :=
  match String.get i s with
  | Some c => String c EmptyString
  | None => EmptyString
  end.

Fixpoint count (c : ascii) (s : string) : nat :=
  match s with
  | EmptyString => O
  | String a s' => ((if Ascii.eqb a c then 1 else 0) + count c s')%nat
  end.

Definition newline : ascii := "010"%char.
Definition nl : string := String newline EmptyString.

End Str.

(** ** JavaScript values that reach the logger ([MessageLog] is [any]) *)

Inductive JsValue :=
| JUndefined
| JNull
| JBool (b : bool)
| JNumber (z : Z)
| JString (s : string)
| JArray (items : list JsValue)
| JObject (props : list (string * JsValue))
    (* a plain object: [value.constructor === Object] *)
| JError (stack : option string) (message : string)
    (* [value.constructor == Error] *)
| JExotic (toStr : option string).
    (* any other object; [toStr] is what its [toString()] returns, [None]
       when the method is missing or throws (as for [Object.create(null)]) *)

Inductive Exception :=
| TypeError (what : string)
| IoError (what : string).

Inductive Completion (A : Type) :=
| Normal (a : A)
| Throw (e : Exception).
Arguments Normal {A} a.
Arguments Throw {A} e.

(** ** The runtime: clock, disk, open resources, timers *)

Abbreviation Uint8Array := (list Byte.byte).

Record Runtime := {
  now : Z;                                  (* clock, in milliseconds *)
  files : gmap (list string) Uint8Array;    (* content of the files on disk *)
  dirs : gset (list string);                (* directories made by [Deno.mkdir] *)
  resources : gmap nat (list string);       (* open files: resource id to path *)
  next_rid : nat;
  timers : list (positive * Z);             (* pending timeouts: id, due time *)
  next_timer : positive
}.

Definition boot (t : Z) : Runtime :=
  {| now := t; files := ∅; dirs := ∅; resources := ∅; next_rid := 3%nat;
     timers := []; next_timer := 1%positive |}.

Definition set_resources (m : gmap nat (list string)) (R : Runtime) : Runtime :=
  {| now := now R; files := files R; dirs := dirs R; resources := m;
     next_rid := next_rid R; timers := timers R; next_timer := next_timer R |}.

Definition set_timers (ts : list (positive * Z)) (R : Runtime) : Runtime :=
  {| now := now R; files := files R; dirs := dirs R; resources := resources R;
     next_rid := next_rid R; timers := ts; next_timer := next_timer R |}.

Definition set_now (t : Z) (R : Runtime) : Runtime :=
  {| now := t; files := files R; dirs := dirs R; resources := resources R;
     next_rid := next_rid R; timers := timers R; next_timer := next_timer R |}.

(** [Deno.mkdir(dir, { recursive: true })], once it has succeeded. *)
Definition Deno_mkdir (dir : list string) (R : Runtime) : Runtime :=
  {| now := now R; files := files R; dirs := {[dir]} ∪ dirs R;
     resources := resources R; next_rid := next_rid R; timers := timers R;
     next_timer := next_timer R |}.

(** [Deno.open(path, { create: true, append: true })], once it has succeeded:
    the file exists afterwards and a fresh resource id refers to it. *)
Definition Deno_open (path : list string) (R : Runtime) : nat * Runtime :=
  (next_rid R,
   {| now := now R;
      files := match files R !! path with
               | Some _ => files R
               | None => <[path := []]> (files R)
               end;
      dirs := dirs R;
      resources := <[next_rid R := path]> (resources R);
      next_rid := S (next_rid R); timers := timers R;
      next_timer := next_timer R |}).

(** [file.write(data)] on a file opened for appending, once it has succeeded;
    [None] when the resource is closed. *)
Definition FsFile_write (rid : nat) (data : Uint8Array) (R : Runtime)
  : option Runtime :=
  match resources R !! rid with
  | Some path =>
      Some {| now := now R;
              files := <[path := default [] (files R !! path) ++ data]> (files R);
              dirs := dirs R; resources := resources R; next_rid := next_rid R;
              timers := timers R; next_timer := next_timer R |}
  | None => None
  end.

(** [file.close()]. *)
Definition FsFile_close (rid : nat) (R : Runtime) : Runtime :=
  set_resources (delete rid (resources R)) R.

(** [setTimeout(callback, delay)]: every callback the logger registers is
    [closeLogs] of the instance, so a pending timeout is its id and due time. *)
Definition setTimeout (delay : Z) (R : Runtime) : positive * Runtime :=
  (next_timer R,
   {| now := now R; files := files R; dirs := dirs R; resources := resources R;
      next_rid := next_rid R;
      timers := timers R ++ [(next_timer R, now R + Z.max 0 delay)];
      next_timer := Pos.succ (next_timer R) |}).

Definition clearTimeout (id : positive) (R : Runtime) : Runtime :=
  set_timers (filter (λ t, t.1 ≠ id) (timers R)) R.

(** ** The instance *)

Record Log := {
  _logFile : option nat;
  _logFileTimeout : option positive;
  _logFileTaken : bool;
  _logFileDate : string;
  _values : list (string * JsValue);
  shouldConsoleLog : bool;
  shouldSaveConsole : bool;
  fileTimeout : Z;
  relativePath : list string;
  _logDataQueue : list Uint8Array
}.

Definition set_logFile (v : option nat) (L : Log) : Log :=
  {| _logFile := v; _logFileTimeout := _logFileTimeout L;
     _logFileTaken := _logFileTaken L; _logFileDate := _logFileDate L;
     _values := _values L; shouldConsoleLog := shouldConsoleLog L;
     shouldSaveConsole := shouldSaveConsole L; fileTimeout := fileTimeout L;
     relativePath := relativePath L; _logDataQueue := _logDataQueue L |}.

Definition set_logFileTimeout (v : option positive) (L : Log) : Log :=
  {| _logFile := _logFile L; _logFileTimeout := v;
     _logFileTaken := _logFileTaken L; _logFileDate := _logFileDate L;
     _values := _values L; shouldConsoleLog := shouldConsoleLog L;
     shouldSaveConsole := shouldSaveConsole L; fileTimeout := fileTimeout L;
     relativePath := relativePath L; _logDataQueue := _logDataQueue L |}.

Definition set_logFileTaken (v : bool) (L : Log) : Log :=
  {| _logFile := _logFile L; _logFileTimeout := _logFileTimeout L;
     _logFileTaken := v; _logFileDate := _logFileDate L;
     _values := _values L; shouldConsoleLog := shouldConsoleLog L;
     shouldSaveConsole := shouldSaveConsole L; fileTimeout := fileTimeout L;
     relativePath := relativePath L; _logDataQueue := _logDataQueue L |}.

Definition set_logFileDate (v : string) (L : Log) : Log :=
  {| _logFile := _logFile L; _logFileTimeout := _logFileTimeout L;
     _logFileTaken := _logFileTaken L; _logFileDate := v;
     _values := _values L; shouldConsoleLog := shouldConsoleLog L;
     shouldSaveConsole := shouldSaveConsole L; fileTimeout := fileTimeout L;
     relativePath := relativePath L; _logDataQueue := _logDataQueue L |}.

Definition set_logDataQueue (v : list Uint8Array) (L : Log) : Log :=
  {| _logFile := _logFile L; _logFileTimeout := _logFileTimeout L;
     _logFileTaken := _logFileTaken L; _logFileDate := _logFileDate L;
     _values := _values L; shouldConsoleLog := shouldConsoleLog L;
     shouldSaveConsole := shouldSaveConsole L; fileTimeout := fileTimeout L;
     relativePath := relativePath L; _logDataQueue := v |}.

Definition set_fileTimeout (v : Z) (L : Log) : Log :=
  {| _logFile := _logFile L; _logFileTimeout := _logFileTimeout L;
     _logFileTaken := _logFileTaken L; _logFileDate := _logFileDate L;
     _values := _values L; shouldConsoleLog := shouldConsoleLog L;
     shouldSaveConsole := shouldSaveConsole L; fileTimeout := v;
     relativePath := relativePath L; _logDataQueue := _logDataQueue L |}.

(** ** Terminal colours (lines 531-562) and [colorString] (lines 523-529) *)

Module terminalColor.

Definition esc : string := String "027"%char EmptyString.
Definition sgr (n : string) : string := esc +:+ "[" +:+ n +:+ "m".

Module foreground.
Definition black := sgr "30".
Definition red := sgr "31".
Definition green := sgr "32".
Definition yellow := sgr "33".
Definition blue := sgr "34".
Definition magenta := sgr "35".
Definition cyan := sgr "36".
Definition white := sgr "37".
End foreground.

Module background.
Definition black := sgr "40".
Definition red := sgr "41".
Definition green := sgr "42".
Definition yellow := sgr "44".
Definition blue := sgr "44".
Definition magenta := sgr "45".
Definition cyan := sgr "46".
Definition white := sgr "47".
End background.

Module special.
Definition normal := sgr "0".
Definition bold := sgr "1".
Definition dim := sgr "2".
Definition underlined := sgr "4".
Definition blink := sgr "5".
Definition reverse_video := sgr "7".
Definition invisible := sgr "8".
End special.

End terminalColor.

Import terminalColor.

Definition colorString (text : string) (prefixes suffixes : list string) : string :=
  Str.join EmptyString prefixes +:+ text +:+ Str.join EmptyString suffixes.

(** The default of the parameter [suffixes]. *)
Definition normalSuffix : list string := [special.normal].

Definition headerPrefix : string := "╔════ ".
Definition middlePrefix : string := "║ ".
Definition footerPrefix : string := "╚═════════ ".

(** ** The console *)

Inductive Sink :=
| Stdout     (* [console.log] *)
| Stderr.    (* [console.error] *)

Record Console := {
  relativePathBeingDisplayed : string;   (* the module variable of line 384 *)
  printed : list (Sink * string)
}.

Definition console_print (k : Sink) (text : string) (C : Console) : Console :=
  {| relativePathBeingDisplayed := relativePathBeingDisplayed C;
     printed := printed C ++ [(k, text)] |}.

Definition set_relativePathBeingDisplayed (v : string) (C : Console) : Console :=
  {| relativePathBeingDisplayed := v; printed := printed C |}.

Definition showException (e : Exception) : string :=
  match e with
  | TypeError what => "TypeError: " +:+ what
  | IoError what => "Error: " +:+ what
  end.

(** The parameter [relativePath?: string | true] of [custom]. *)
Inductive RelativePathArg :=
| RPundefined
| RPtrue
| RPstring (label : string).

#[global] Instance RelativePathArg_eq_dec : EqDecision RelativePathArg.
Proof. solve_decision. Defined.

(** [keyof typeof output]. *)
Inductive Level := debug | info | warn | error.

Definition toUpperCase (type : Level) : string :=
  match type with
  | debug => "DEBUG"
  | info => "INFO"
  | warn => "WARN"
  | error => "ERROR"
  end.

Definition isErrorLevel (type : Level) : bool :=
  match type with error => true | _ => false end.

(** ** Conversion to a string

    [v.toString()] and the conversion of a template literal, which agree on
    the values of the model.  An array joins the conversions of its items,
    [null] and [undefined] items giving the empty text. *)
Fixpoint ToString (v : JsValue) : Completion string :=
  match v with
  | JUndefined => Normal "undefined"
  | JNull => Normal "null"
  | JBool b => Normal (if b then "true" else "false")
  | JNumber z => Normal (pretty z)
  | JString s => Normal s
  | JArray items =>
      match (fix items_text (l : list JsValue) : Completion (list string) :=
               match l with
               | [] => Normal []
               | x :: l' =>
                   match (match x with
                          | JUndefined | JNull => Normal EmptyString
                          | _ => ToString x
                          end) with
                   | Throw e => Throw e
                   | Normal a =>
                       match items_text l' with
                       | Throw e => Throw e
                       | Normal b => Normal (a :: b)
                       end
                   end
               end) items with
      | Normal texts => Normal (Str.join "," texts)
      | Throw e => Throw e
      end
  | JObject _ => Normal "[object Object]"
  | JError _ message =>
      Normal (if bool_decide (message = EmptyString) then "Error"
              else "Error: " +:+ message)
  | JExotic (Some s) => Normal s
  | JExotic None => Throw (TypeError "toString is not a function")
  end.

(** [isObject] (lines 483-486) and [Array.isArray]. *)
Definition isObject (value : JsValue) : bool :=
  match value with JObject _ => true | _ => false end.

Definition Array_isArray (value : JsValue) : bool :=
  match value with JArray _ => true | _ => false end.

(** * The directory walker ([sub_dir.ts]) *)

Module DirUtils.

(** What [Deno.readDir] yields for a directory, entry after entry: a file, a
    directory with what [Deno.readDir] yields for it in turn, an entry that
    is neither (a symbolic link, a socket); the end of the directory; or a
    failure of the iteration (the directory cannot be read). *)
Inductive Listing :=
| Done
| Fails
| File (name : string) (rest : Listing)
| Directory (name : string) (content : Listing) (rest : Listing)
| Other (name : string) (rest : Listing).

Record SubDirEntry := {
  name : string;
  direcotry : list string;
  path : list string
}.

(** [Path.isAbsolute] on one name. *)
Definition isAbsolute (name : string) : bool := Str.startsWith name "/".

(** The entry pushed for a file (lines 21-27). *)
Definition fileEntry (dir : list string) (entry : string) : SubDirEntry :=
  {| name := entry; direcotry := dir;
     path := if isAbsolute entry then [entry] else dir ++ [entry] |}.

(** [_readSubDir] (lines 12-31).  [listing] is what [Deno.readDir(path)]
    yields. *)
Fixpoint _readSubDir (listing : Listing) (path : list string)
    (filesRead : list SubDirEntry) : Completion (list SubDirEntry) :=
  match listing with
  | Done => Normal filesRead
  | Fails => Throw (IoError "readDir")
  | File entry rest => _readSubDir rest path (filesRead ++ [fileEntry path entry])
  | Directory entry content rest =>
      match _readSubDir content (path ++ [entry]) [] with
      | Normal found => _readSubDir rest path (filesRead ++ found)
      | Throw e => Throw e
      end
  | Other entry rest => _readSubDir rest path filesRead
  end.

(** [readSubDir] (line 10). *)
Definition readSubDir (listing : Listing) (path : list string)
  : Completion (list SubDirEntry) :=
  _readSubDir listing path [].

(** The number of files below a directory, links not followed. *)
Fixpoint countFiles (listing : Listing) : nat :=
  match listing with
  | Done | Fails => 0
  | File _ rest => S (countFiles rest)
  | Directory _ content rest => countFiles content + countFiles rest
  | Other _ rest => countFiles rest
  end.

(** Every directory below, links not followed, can be read to its end. *)
Fixpoint readable (listing : Listing) : bool :=
  match listing with
  | Done => true
  | Fails => false
  | File _ rest | Other _ rest => readable rest
  | Directory _ content rest => readable content && readable rest
  end.


End DirUtils.

(** * The caller tag ([getFileCode], lines 493-515) *)

Module Caller.

Definition backslash : string := String "092"%char EmptyString.

(** Lines 505-510: the last two segments of the file of a frame. *)
Definition shortPath (rootFolder field : string) : string :=
  Str.join "/"
    (rev (take 2
            (rev (filter (λ v, (0 < String.length v)%nat)
                    (Str.split "/"
                       (Str.replace (Str.replaceAll field backslash "/")
                          rootFolder EmptyString)))))).

(** The frame read by the call: index [getLine + 1] of the lines of the
    stack, or the last line when [getLine] exceeds their number. *)
Definition frameIndex (frames : list string) (getLine : nat) : nat :=
  if (length frames <? getLine)%nat then (length frames - 1)%nat
  else (getLine + 1)%nat.

(** [getFileCode]: [stack] is the [stack] of the [Error] made by the call.
    An exception inside [try] (no stack, no frame at the index, no field at
    the index read) gives [[unknown]]. *)
Definition getFileCode (rootFolder : string) (stack : option string)
    (getLine : nat) : string :=
  match stack with
  | None => "[unknown]"
  | Some stack =>
      if bool_decide (stack = EmptyString) then "[unknown]"
      else
        let frames := Str.split Str.newline stack in
        match frames !! frameIndex frames getLine with
        | None => "[unknown]"
        | Some frame =>
            let filePathFrame := rev (Str.split ":" frame) in
            let lineNumber := filePathFrame !! 1%nat in
            match (if (length filePathFrame <? 2)%nat
                   then filePathFrame !! length filePathFrame
                   else filePathFrame !! 2%nat) with
            | None => "[unknown]"
            | Some field =>
                "[" +:+ shortPath rootFolder field +:+ ":"
                +:+ default "undefined" lineNumber +:+ "]"
            end
        end
  end.

End Caller.

Section Logger.

(** [rootFolder = Deno.cwd()]. *)
Variable rootFolder : string.

(** [Deno.inspect(value, { depth, colors: true })]. *)
Variable Deno_inspect : option nat -> JsValue -> string.

(** [getFileCode] (lines 493-515) reads the stack of a fresh [Error]; its
    body is inside [try] and every exception gives the tag [[unknown]], so it
    is a function of the frame asked for. *)
Variable getFileCode : nat -> string.

Definition rootFolderToLogs : list string := [rootFolder; "logs"].

(** [get absolutePath()]: [Path.resolve(rootFolderToLogs, _logFileDate,
    ...relativePath)]. *)
Definition absolutePath (L : Log) : list string :=
  rootFolderToLogs ++ _logFileDate L :: relativePath L.

(** The directory handed to [Deno.mkdir]: the code takes the text of
    [absPath] before its base name. *)
Definition dirOf (absPath : list string) : list string := removelast absPath.

(** ** [closeLogs] (lines 294-302)

    [FsFile.close] is total here: the only place that closes a resource is
    [closeLogs], which forgets the handle in the same turn, so [_logFile]
    never refers to a closed resource. *)
Definition closeLogs (s : Log * Runtime) : Log * Runtime :=
  match _logFile s.1 with
  | Some rid =>
      let R1 := FsFile_close rid s.2 in
      let R2 := match _logFileTimeout s.1 with
                | Some t => clearTimeout t R1
                | None => R1
                end in
      (set_logFileTimeout None (set_logFile None s.1), R2)
  | None => s
  end.

(** ** [writeLog] (lines 253-286) *)

(** Where a suspended call of [writeLog] continues. *)
Inductive Awaiting :=
| AwaitMkdir (absPath : list string)        (* line 267 *)
| AwaitOpen (absPath : list string)         (* line 268 *)
| AwaitWrite (next : nat) (rid : nat) (data : Uint8Array).
    (* line 281: the write of one queue entry on the handle read from
       [_logFile] when the write was issued; [next] is the index the array
       iterator visits afterwards *)

Inductive Progress :=
| Suspended (k : Awaiting) (s : Log * Runtime)
| Finished (r : Completion unit) (s : Log * Runtime).

(** Lines 280-285, from index [i] of the iterator over [_logDataQueue].  The
    iterator reads the array as it is when visited. *)
Definition drain (i : nat) (s : Log * Runtime) : Progress :=
  match _logDataQueue s.1 !! i with
  | Some data =>
      match _logFile s.1 with
      | Some rid => Suspended (AwaitWrite (S i) rid data) s
      | None => Finished (Throw (TypeError "this._logFile is null")) s
      end
  | None =>
      let L := set_logFileTaken false (set_logDataQueue [] s.1) in
      Finished (Normal tt)
        (match _logFileTimeout L with
         | Some _ => (L, s.2)
         | None => closeLogs (L, s.2)
         end)
  end.

(** Lines 254-267: the call up to its first [await].  [date] is
    [Day().format(folderDateFormat)]. *)
Definition writeLog (date : string) (data : Uint8Array) (s : Log * Runtime)
  : Progress :=
  let L := set_logDataQueue (_logDataQueue s.1 ++ [data]) s.1 in
  if _logFileTaken L then Finished (Normal tt) (L, s.2)
  else if bool_decide (_logFile L = None ∨ _logFileDate L ≠ date) then
    let s1 := closeLogs (set_logFileDate date L, s.2) in
    Suspended (AwaitMkdir (absolutePath s1.1)) s1
  else drain 0 (L, s.2).

(** Lines 274-276.  [??] binds weaker than [>], so the condition is
    [this.fileTimeout ?? (0 > 0)]: the truthiness of [fileTimeout]. *)
Definition armTimeout (s : Log * Runtime) : Log * Runtime :=
  if bool_decide (fileTimeout s.1 ≠ 0) then
    let '(id, R) := setTimeout (fileTimeout s.1) s.2 in
    (set_logFileTimeout (Some id) s.1, R)
  else (set_logFileTimeout None s.1, s.2).

(** The call continues after the operation it awaited; [ok] tells whether the
    operation succeeded. *)
Definition resume (k : Awaiting) (ok : bool) (s : Log * Runtime) : Progress :=
  match k with
  | AwaitMkdir absPath =>
      if ok then Suspended (AwaitOpen absPath) (s.1, Deno_mkdir (dirOf absPath) s.2)
      else Finished (Throw (IoError "mkdir")) s
  | AwaitOpen absPath =>
      if ok then
        let '(rid, R) := Deno_open absPath s.2 in
        drain 0 (armTimeout (set_logFile (Some rid) s.1, R))
      else Finished (Throw (IoError "open")) s
  | AwaitWrite next rid data =>
      if ok then
        match FsFile_write rid data s.2 with
        | Some R => drain next (s.1, R)
        | None => Finished (Throw (IoError "write: bad resource")) s
        end
      else Finished (Throw (IoError "write")) s
  end.

(** ** Timers

    Every pending timeout runs [closeLogs] when it is due.  The callbacks run
    one after the other: one of them may clear a later one. *)
Fixpoint fireDue (fuel : nat) (s : Log * Runtime) : Log * Runtime :=
  match fuel with
  | O => s
  | S fuel' =>
      match List.find (λ t, bool_decide (t.2 ≤ now s.2)) (timers s.2) with
      | Some t => fireDue fuel' (closeLogs (s.1, clearTimeout t.1 s.2))
      | None => s
      end
  end.

(** [dt] milliseconds pass. *)
Definition elapse (dt : Z) (s : Log * Runtime) : Log * Runtime :=
  fireDue (length (timers s.2)) (s.1, set_now (now s.2 + Z.max 0 dt) s.2).

(** ** One instance with overlapping calls *)

Record Sys := {
  inst : Log;
  rt : Runtime;
  inflight : list Awaiting      (* the suspended calls of [writeLog] *)
}.

Inductive Event :=
| CallWriteLog (date : string) (data : Uint8Array)
| Completes (n : nat) (ok : bool)   (* the operation awaited by call [n] *)
| CallCloseLogs
| Elapses (dt : Z)
| AssignFileTimeout (v : Z).        (* [fileTimeout] is a public field *)

Definition step (ev : Event) (S : Sys) : Sys :=
  match ev with
  | CallWriteLog date data =>
      match writeLog date data (inst S, rt S) with
      | Suspended k s =>
          {| inst := s.1; rt := s.2; inflight := inflight S ++ [k] |}
      | Finished _ s =>
          {| inst := s.1; rt := s.2; inflight := inflight S |}
      end
  | Completes n ok =>
      match inflight S !! n with
      | Some k =>
          match resume k ok (inst S, rt S) with
          | Suspended k' s =>
              {| inst := s.1; rt := s.2; inflight := <[n := k']> (inflight S) |}
          | Finished _ s =>
              {| inst := s.1; rt := s.2; inflight := delete n (inflight S) |}
          end
      | None => S
      end
  | CallCloseLogs =>
      let s := closeLogs (inst S, rt S) in
      {| inst := s.1; rt := s.2; inflight := inflight S |}
  | Elapses dt =>
      let s := elapse dt (inst S, rt S) in
      {| inst := s.1; rt := s.2; inflight := inflight S |}
  | AssignFileTimeout v =>
      {| inst := set_fileTimeout v (inst S); rt := rt S; inflight := inflight S |}
  end.

Definition run (evs : list Event) (S : Sys) : Sys :=
  fold_left (λ S ev, step ev S) evs S.

(** ** One call awaited to its end

    [io] lists the outcomes of the operations the call awaits, in order (an
    operation beyond the list succeeds).  The call awaits at most the
    directory, the file, and one write for each queue entry. *)
Fixpoint settle (fuel : nat) (io : list bool) (p : Progress)
  : option (Completion unit * (Log * Runtime)) :=
  match p with
  | Finished r s => Some (r, s)
  | Suspended k s =>
      match fuel with
      | O => None
      | S fuel' => settle fuel' (tail io) (resume k (hd true io) s)
      end
  end.

Definition writeLog_await (io : list bool) (date : string) (data : Uint8Array)
    (s : Log * Runtime) : option (Completion unit * (Log * Runtime)) :=
  settle (length (_logDataQueue s.1) + 3) io (writeLog date data s).


(** ** The constructor (lines 169-196) *)

Record LogOptions := {
  opt_shouldConsoleLog : option bool;
  opt_shouldSaveConsole : option bool;
  opt_initValues : option (list (string * JsValue));
  opt_fileTimeout : option Z
}.

(** [obj[key] = v] on a plain object. *)
Fixpoint assign (key : string) (v : JsValue) (o : list (string * JsValue))
  : list (string * JsValue) :=
  match o with
  | [] => [(key, v)]
  | (k, w) :: o' => if String.eqb k key then (k, v) :: o' else (k, w) :: assign key v o'
  end.

(** [set values(data)] (lines 146-150). *)
Definition set_values (data : list (string * JsValue)) (o : list (string * JsValue))
  : list (string * JsValue) :=
  fold_left (λ o kv, assign kv.1 kv.2 o) data o.

(** The fields of a new instance.  [uuid] is [crypto.randomUUID()], [today]
    is [Day().format(folderDateFormat)].  The warning the constructor prints
    for an empty path is in [Log_new] below. *)
Definition Log_fields (filePath : string) (options : option LogOptions)
    (uuid today : string) : Log :=
  let filePath :=
    if bool_decide (String.length filePath = 0%nat) then "other/" +:+ uuid
    else filePath in
  let parts := Str.split "/"%char filePath in
  let folders := removelast parts in
  let fileName := List.last parts EmptyString in
  let file := if Str.endsWith fileName ".log" then fileName
              else fileName +:+ ".log" in
  {| _logFile := None; _logFileTimeout := None; _logFileTaken := false;
     _logFileDate := today;
     _values := set_values (default [] (options ≫= opt_initValues)) [];
     shouldConsoleLog := default true (options ≫= opt_shouldConsoleLog);
     shouldSaveConsole := default true (options ≫= opt_shouldSaveConsole);
     fileTimeout := default 5000 (options ≫= opt_fileTimeout);
     relativePath := folders ++ [file];
     _logDataQueue := [] |}.

(** ** The console window formatter [custom] (lines 392-481) *)

Definition Path_join (a b : string) : string := a +:+ "/" +:+ b.

(** Lines 400-424: the message as text, and whether it goes to the error
    sink. *)
Definition parseMessage (message : JsValue) (isError : bool)
  : Completion (string * bool) :=
  let '(message, isError) :=
    match message with
    | JError stack _ =>
        let lines := Str.split Str.newline (default EmptyString stack) in
        let marked :=
          imap (λ i msg,
                  if (i =? 0)%nat
                     || Str.includes msg (Path_join rootFolder "src")
                     || Str.includes msg (Path_join rootFolder "dist")
                  then colorString msg [background.red; foreground.white]
                         normalSuffix
                  else msg) lines in
        (JString (Str.join Str.nl
                    (map (λ v, colorString v [foreground.red] normalSuffix)
                       marked)),
         true)
    | _ => (message, isError)
    end in
  if isObject message || Array_isArray message
  then Normal (Deno_inspect (Some 5%nat) message, isError)
  else match message with
       | JUndefined => Normal ("undefined", isError)
       | JNull => Normal ("null", isError)
       | _ => match ToString message with
              | Normal text => Normal (text, isError)
              | Throw e => Throw e
              end
       end.

(** Lines 425-430: the [while] loop; [None] when [fuel] rounds do not end
    it. *)
Fixpoint recolour (fuel : nat) (message : string) (colors : list string)
  : option string :=
  if Str.includes message special.normal then
    match fuel with
    | O => None
    | S fuel' =>
        recolour fuel'
          (Str.replace message special.normal (Str.join EmptyString colors))
          colors
    end
  else Some message.

(** Lines 432-444. *)
Definition prefixLines (message : string) : string :=
  Str.join Str.nl
    (imap (λ i line,
             (if (0 <? i)%nat
              then colorString middlePrefix
                     [special.normal; foreground.red] normalSuffix
              else EmptyString) +:+ line)
       (Str.split Str.newline message)).

(** Lines 448-453; [colors[0]] is [undefined] for an empty list. *)
Definition fileColorOf (colors : list string) : Completion (list string) :=
  match colors with
  | [] => Throw (TypeError "colors[0] is undefined")
  | c :: _ =>
      Normal (if String.eqb (Str.charAt 3 c) "m" then [background.cyan]
              else [foreground.white; esc +:+ "[4" +:+ Str.charAt 3 c +:+ "m"])
  end.

(** Lines 456-475: the window the line belongs to.  The result is
    [shouldMiddlePrefix]. *)
Definition window (relativePath : RelativePathArg) (C : Console)
  : bool * Console :=
  if bool_decide
       ((relativePath = RPtrue
         ∧ (0 < String.length (relativePathBeingDisplayed C))%nat)
        ∨ RPstring (relativePathBeingDisplayed C) = relativePath)
  then (true, C)
  else
    let C1 :=
      if bool_decide (0 < String.length (relativePathBeingDisplayed C))%nat
      then set_relativePathBeingDisplayed EmptyString
             (console_print Stdout footerPrefix C)
      else C in
    match relativePath with
    | RPstring label =>
        if bool_decide (label ≠ EmptyString)
        then (true,
              console_print Stdout (headerPrefix +:+ label)
                (set_relativePathBeingDisplayed label C1))
        else (false, C1)
    | _ => (false, C1)
    end.

Definition custom (fuel : nat) (message : JsValue) (colors : list string)
    (getLine : nat) (isError : bool) (relativePath : RelativePathArg)
    (C : Console) : option (Completion JsValue * Console) :=
  match parseMessage message isError with
  | Throw e => Some (Throw e, C)
  | Normal (text, isError) =>
      match recolour fuel text colors with
      | None => None
      | Some text =>
          let text := prefixLines text in
          let file := getFileCode (getLine + 1) in
          match fileColorOf colors with
          | Throw e => Some (Throw e, C)
          | Normal fileColor =>
              let file :=
                Str.replaceAll file special.normal
                  (Str.join EmptyString fileColor) in
              let '(shouldMiddlePrefix, C1) := window relativePath C in
              Some (Normal JNull,
                    console_print (if isError then Stderr else Stdout)
                      (colorString
                         (if shouldMiddlePrefix then middlePrefix
                          else EmptyString) colors normalSuffix
                       +:+ colorString file fileColor normalSuffix +:+ " "
                       +:+ colorString text colors normalSuffix)
                      C1)
          end
      end
  end.

(** The static methods [Log.debug] ... [Log.error] (lines 18-51). *)
Definition output (type : Level) (fuel : nat) (message : JsValue)
    (usePrevLog : bool) (C : Console) : option (Completion JsValue * Console) :=
  custom fuel message
    [match type with
     | debug => foreground.cyan
     | info => foreground.green
     | warn => foreground.yellow
     | error => foreground.red
     end]
    2 (isErrorLevel type) (if usePrevLog then RPtrue else RPundefined) C.

(** ** The facade *)

Definition relativePathString (L : Log) : string :=
  Str.join "/" (relativePath L).

(** [valuesLog] (lines 234-246). *)
Definition valuesLog (L : Log) (C : Console) : Console :=
  let color := foreground.magenta in
  let tag := colorString ("[" +:+ relativePathString L +:+ "]")
               [foreground.cyan] normalSuffix in
  let C1 := console_print Stdout
              (color +:+ middlePrefix +:+ "[VALUES] " +:+ tag) C in
  let C2 := fold_left
              (λ C line, console_print Stdout (color +:+ middlePrefix +:+ line) C)
              (Str.split Str.newline (Deno_inspect None (JObject (_values L))))
              C1 in
  console_print Stdout (color +:+ footerPrefix +:+ "[END OF VALUES] " +:+ tag) C2.

(** Lines 319-321: the arguments replace the [%s] of a message that has a
    [replace] method. *)
Definition substitute (message : JsValue) (args : list string) : JsValue :=
  match message with
  | JString text =>
      JString (fold_left (λ content v, Str.replace content "%s" v) args text)
  | _ => message
  end.

(** Lines 339-343: the text of the call in the file. *)
Definition logText (timestamp : string) (type : Level) (file content : string)
    (values : list (string * JsValue)) : string :=
  "[" +:+ timestamp +:+ "] [" +:+ toUpperCase type +:+ "] " +:+ file +:+ " "
  +:+ content +:+ Str.nl
  +:+ (if isErrorLevel type
       then "[" +:+ timestamp +:+ "] ↦ "
            +:+ Deno_inspect None (JObject values) +:+ Str.nl
       else EmptyString).

(** [new TextEncoder().encode(text)]: the text is kept in UTF-8. *)
Definition encode (text : string) : Uint8Array := String.list_byte_of_string text.

Record State := {
  log : Log;
  runtime : Runtime;
  console : Console
}.

(** Lines 313-346, the body of [try], with [writeLog] awaited to its end.
    [timestamp] is [Day().format("h:mm:ss A")] and [today] the date read by
    [writeLog]; [io] as in [writeLog_await]. *)
Definition createNewLog_try (fuel : nat) (io : list bool)
    (timestamp today : string) (type : Level) (message : JsValue)
    (args : list string) (colors : list string) (getLine : nat) (st : State)
  : option (Completion unit * State) :=
  let file := getFileCode (getLine + 1) in
  let content := substitute message args in
  let shown :=
    if shouldConsoleLog (log st) then
      match custom fuel content colors (getLine + 1) (isErrorLevel type)
              (RPstring (relativePathString (log st))) (console st) with
      | None => None
      | Some (Throw e, C) => Some (Throw e, C)
      | Some (Normal _, C) =>
          Some (Normal tt,
                if isErrorLevel type then valuesLog (log st) C else C)
      end
    else Some (Normal tt, console st) in
  match shown with
  | None => None
  | Some (Throw e, C) =>
      Some (Throw e, {| log := log st; runtime := runtime st; console := C |})
  | Some (Normal _, C) =>
      if shouldSaveConsole (log st) then
        match ToString content with
        | Throw e =>
            Some (Throw e,
                  {| log := log st; runtime := runtime st; console := C |})
        | Normal text =>
            match writeLog_await io today
                    (encode (logText timestamp type file text (_values (log st))))
                    (log st, runtime st) with
            | None => None
            | Some (r, s) =>
                Some (r, {| log := s.1; runtime := s.2; console := C |})
            end
        end
      else Some (Normal tt,
                 {| log := log st; runtime := runtime st; console := C |})
  end.

(** [createNewLog] (lines 305-351): [catch] prints the exception, and the
    call returns [null]. *)
Definition createNewLog (fuel : nat) (io : list bool)
    (timestamp today : string) (type : Level) (message : JsValue)
    (args : list string) (colors : list string) (getLine : nat) (st : State)
  : option (Completion JsValue * State) :=
  match createNewLog_try fuel io timestamp today type message args colors
          getLine st with
  | None => None
  | Some (Normal _, st') => Some (Normal JNull, st')
  | Some (Throw e, st') =>
      Some (Normal JNull,
            {| log := log st'; runtime := runtime st';
               console := console_print Stderr (showException e) (console st') |})
  end.

(** The level methods of an instance (lines 198-229). *)
Definition levelColor (type : Level) : string :=
  match type with
  | debug => foreground.cyan
  | info => foreground.green
  | warn => foreground.yellow
  | error => foreground.red
  end.

Definition Log_level (type : Level) (fuel : nat) (io : list bool)
    (timestamp today : string) (message : JsValue) (args : list string)
    (st : State) : option (Completion JsValue * State) :=
  createNewLog fuel io timestamp today type message args [levelColor type] 2 st.

(** The constructor with the warning it prints for an empty path. *)
Definition Log_new (fuel : nat) (filePath : string) (options : option LogOptions)
    (uuid today : string) (C : Console) : option (Completion Log * Console) :=
  if bool_decide (String.length filePath = 0%nat) then
    match custom fuel
            (JString ("Output class Log: filePath is empty, defaulting to "
                      +:+ "other/" +:+ uuid))
            [foreground.yellow] 2 false RPundefined C with
    | None => None
    | Some (Throw e, C') => Some (Throw e, C')
    | Some (Normal _, C') =>
        Some (Normal (Log_fields filePath options uuid today), C')
    end
  else Some (Normal (Log_fields filePath options uuid today), C).

(** ** States used by the properties *)

(** The states an instance reaches: it is constructed, then calls of
    [writeLog] start, awaited operations complete, [closeLogs] is called,
    time passes, [fileTimeout] is assigned, in any order. *)
Inductive reachable : Sys -> Prop :=
| reachable_new filePath options uuid today R :
    reachable {| inst := Log_fields filePath options uuid today; rt := R;
                 inflight := [] |}
| reachable_step ev S : reachable S -> reachable (step ev S).


(** The file of the instance for the date partition [date]. *)
Definition logPath (L : Log) (date : string) : list string :=
  rootFolderToLogs ++ date :: relativePath L.


(** The reading of "clear the date marker": no date is left in it. *)
Definition date_marker_cleared (L : Log) : Prop := _logFileDate L = EmptyString.

(** The number of lines of a text: its line ends. *)
Definition lines (text : string) : nat := Str.count Str.newline text.


(** The character [0], which no colour of a level method holds. *)
Definition zero : ascii := "0"%char.

(** A window is open. *)
Definition windowOpen (C : Console) : Prop :=
  relativePathBeingDisplayed C ≠ EmptyString.

#[global] Instance windowOpen_dec (C : Console) : Decision (windowOpen C).
Proof. unfold windowOpen. apply _. Defined.

(** The line continues the open window: the label is [true] and a window is
    open, or the label is the one of the open window. *)
Definition continuation (relativePath : RelativePathArg) (C : Console) : Prop :=
  (relativePath = RPtrue ∧ windowOpen C)
  ∨ relativePath = RPstring (relativePathBeingDisplayed C).

(** The label when it is a string that is not empty. *)
Definition labelOf (relativePath : RelativePathArg) : option string :=
  match relativePath with
  | RPstring label => if decide (label = EmptyString) then None else Some label
  | _ => None
  end.

(** The runtime holds the handle of the instance and no other open file. *)
Definition oneHandle (s : Log * Runtime) : Prop :=
  match _logFile s.1 with
  | Some rid => resources s.2 = {[rid := absolutePath s.1]}
  | None => resources s.2 = ∅
  end.


(** What a suspended call relies on: the path it opens is the path of the
    instance, and the instance has no handle until the file is open. *)
Definition awaitingPath (k : Awaiting) (s : Log * Runtime) : Prop :=
  match k with
  | AwaitMkdir absPath | AwaitOpen absPath =>
      absPath = absolutePath s.1 ∧ _logFile s.1 = None
  | AwaitWrite _ _ _ => True
  end.

(** What is done to an instance when no two calls of [writeLog] overlap:
    a call awaited to its end, [closeLogs], time passing, an assignment to
    [fileTimeout]. *)
Inductive Action :=
| Append (io : list bool) (date : string) (data : Uint8Array)
| Close
| Wait (dt : Z)
| SetFileTimeout (v : Z).

Definition act (a : Action) (s : Log * Runtime) : Log * Runtime :=
  match a with
  | Append io date data =>
      match writeLog_await io date data s with
      | Some (_, s') => s'
      | None => s
      end
  | Close => closeLogs s
  | Wait dt => elapse dt s
  | SetFileTimeout v => (set_fileTimeout v s.1, s.2)
  end.

(** [highlight] (lines 370-372). *)
Definition highlight (message : string) : string :=
  colorString message [foreground.white] normalSuffix.

(** The escape character, with which every colour starts. *)
Definition escape : ascii := "027"%char.

(** [o[key]]: the value of a property of a plain object. *)
Fixpoint property (key : string) (o : list (string * JsValue)) : option JsValue :=
  match o with
  | [] => None
  | (k, v) :: o' => if String.eqb k key then Some v else property key o'
  end.

(** The path given to the constructor, after the default for an empty one. *)
Definition givenPath (filePath uuid : string) : string :=
  if bool_decide (String.length filePath = 0%nat) then "other/" +:+ uuid
  else filePath.

(** * Properties *)

(** ** [closeLogs] *)

Lemma closeLogs_closed (s : Log * Runtime) :
  _logFile s.1 = None -> closeLogs s = s.
Proof. intros H. unfold closeLogs. now rewrite H. Qed.

Lemma closeLogs_logFile (s : Log * Runtime) : _logFile (closeLogs s).1 = None.
Proof. unfold closeLogs. destruct (_logFile s.1) eqn:E; [reflexivity | exact E]. Qed.

Lemma closeLogs_taken (s : Log * Runtime) :
  _logFileTaken (closeLogs s).1 = _logFileTaken s.1.
Proof. unfold closeLogs. now destruct (_logFile s.1). Qed.

Lemma closeLogs_queue (s : Log * Runtime) :
  _logDataQueue (closeLogs s).1 = _logDataQueue s.1.
Proof. unfold closeLogs. now destruct (_logFile s.1). Qed.

Lemma closeLogs_date (s : Log * Runtime) :
  _logFileDate (closeLogs s).1 = _logFileDate s.1.
Proof. unfold closeLogs. now destruct (_logFile s.1). Qed.

Lemma closeLogs_relativePath (s : Log * Runtime) :
  relativePath (closeLogs s).1 = relativePath s.1.
Proof. unfold closeLogs. now destruct (_logFile s.1). Qed.

Lemma closeLogs_fileTimeout (s : Log * Runtime) :
  fileTimeout (closeLogs s).1 = fileTimeout s.1.
Proof. unfold closeLogs. now destruct (_logFile s.1). Qed.

Lemma clearTimeout_gone (t : positive) (R : Runtime) (due : Z) :
  (t, due) ∉ timers (clearTimeout t R).
Proof.
  unfold clearTimeout. simpl. intros Hin.
  apply list_elem_of_filter in Hin as [Hne _]. now apply Hne.
Qed.

(** C4 (as amended).  [closeLogs] is idempotent; without a handle it changes
    nothing; with a handle it closes the resource, forgets the handle, cancels
    the pending timeout and forgets it.  It leaves [_logFileDate] as it is. *)
Theorem closeLogs_idempotent (s : Log * Runtime) :
  closeLogs (closeLogs s) = closeLogs s
  ∧ (_logFile s.1 = None -> closeLogs s = s)
  ∧ (∀ rid, _logFile s.1 = Some rid ->
       _logFile (closeLogs s).1 = None
       ∧ _logFileTimeout (closeLogs s).1 = None
       ∧ resources (closeLogs s).2 !! rid = None
       ∧ ∀ t due, _logFileTimeout s.1 = Some t ->
           (t, due) ∉ timers (closeLogs s).2)
  ∧ _logFileDate (closeLogs s).1 = _logFileDate s.1.
Proof.
  split; [| split; [| split]].
  - apply closeLogs_closed, closeLogs_logFile.
  - apply closeLogs_closed.
  - intros rid Hrid. unfold closeLogs. rewrite Hrid. cbn.
    repeat split.
    + destruct (_logFileTimeout s.1); cbn; apply lookup_delete_eq.
    + intros t due Ht. rewrite Ht. apply clearTimeout_gone.
  - apply closeLogs_date.
Qed.

(** ** The guard flag [_logFileTaken] *)

Lemma drain_taken (i : nat) (s : Log * Runtime) :
  _logFileTaken s.1 = false ->
  match drain i s with
  | Suspended _ s' | Finished _ s' => _logFileTaken s'.1 = false
  end.
Proof.
  intros H. unfold drain.
  destruct (_logDataQueue s.1 !! i).
  - now destruct (_logFile s.1).
  - cbn. destruct (_logFileTimeout s.1); [reflexivity |].
    now rewrite closeLogs_taken.
Qed.

Lemma armTimeout_taken (s : Log * Runtime) :
  _logFileTaken (armTimeout s).1 = _logFileTaken s.1.
Proof. unfold armTimeout. now case_bool_decide. Qed.

Lemma resume_taken (k : Awaiting) (ok : bool) (s : Log * Runtime) :
  _logFileTaken s.1 = false ->
  match resume k ok s with
  | Suspended _ s' | Finished _ s' => _logFileTaken s'.1 = false
  end.
Proof.
  intros H. destruct k, ok; cbn; try assumption.
  - apply drain_taken. now rewrite armTimeout_taken.
  - destruct (FsFile_write rid data s.2); [| assumption].
    now apply drain_taken.
Qed.

Lemma writeLog_taken (date : string) (data : Uint8Array) (s : Log * Runtime) :
  _logFileTaken s.1 = false ->
  match writeLog date data s with
  | Suspended _ s' | Finished _ s' => _logFileTaken s'.1 = false
  end.
Proof.
  intros H. unfold writeLog. cbn. rewrite H.
  case_bool_decide.
  - cbn. now rewrite closeLogs_taken.
  - now apply drain_taken.
Qed.

Lemma fireDue_taken (fuel : nat) (s : Log * Runtime) :
  _logFileTaken (fireDue fuel s).1 = _logFileTaken s.1.
Proof.
  revert s. induction fuel as [| fuel IH]; intros s; [reflexivity |].
  cbn. destruct (List.find _ _); [| reflexivity].
  rewrite IH. now rewrite closeLogs_taken.
Qed.

Lemma step_taken (ev : Event) (S : Sys) :
  _logFileTaken (inst S) = false -> _logFileTaken (inst (step ev S)) = false.
Proof.
  intros H. destruct ev; cbn.
  - pose proof (writeLog_taken date data (inst S, rt S) H) as Hw.
    now destruct (writeLog date data (inst S, rt S)).
  - destruct (inflight S !! n) as [k |]; [| assumption].
    pose proof (resume_taken k ok (inst S, rt S) H) as Hr.
    now destruct (resume k ok (inst S, rt S)).
  - now rewrite closeLogs_taken.
  - unfold elapse. now rewrite fireDue_taken.
  - assumption.
Qed.

Lemma reachable_taken (S : Sys) :
  reachable S -> _logFileTaken (inst S) = false.
Proof.
  induction 1 as [| ev S _ IH]; [reflexivity |]. now apply step_taken.
Qed.

(** C5.  In every reachable state [_logFileTaken] is [false], so a call of
    [writeLog] never leaves at the guard: it is suspended at [Deno.mkdir]
    (open or rotate) or at the write of the first queue entry (drain). *)
Theorem logFileTaken_never_set (S : Sys) (date : string) (data : Uint8Array) :
  reachable S ->
  _logFileTaken (inst S) = false
  ∧ ((∃ absPath s, writeLog date data (inst S, rt S)
                   = Suspended (AwaitMkdir absPath) s)
     ∨ (∃ rid first s, writeLog date data (inst S, rt S)
                       = Suspended (AwaitWrite 1 rid first) s
                       ∧ _logFile (inst S) = Some rid
                       ∧ (_logDataQueue (inst S) ++ [data]) !! 0%nat = Some first)).
Proof.
  intros Hr. pose proof (reachable_taken S Hr) as Ht. split; [exact Ht |].
  unfold writeLog. cbn. rewrite Ht. case_bool_decide as Hd.
  - left. eauto.
  - right. unfold drain. cbn.
    destruct (_logFile (inst S)) as [rid |] eqn:Hf.
    + destruct (_logDataQueue (inst S)) as [| d q]; cbn; eauto 6.
    + exfalso. apply Hd. now left.
Qed.

(** ** A call awaited to its end *)

Lemma drain_state (i : nat) (s : Log * Runtime) :
  match drain i s with
  | Suspended (AwaitWrite next _ _) s' =>
      s' = s ∧ next = S i ∧ (i < length (_logDataQueue s.1))%nat
  | Suspended _ _ => False
  | Finished (Throw _) s' => s' = s
  | Finished (Normal _) s' => _logDataQueue s'.1 = []
  end.
Proof.
  unfold drain. destruct (_logDataQueue s.1 !! i) eqn:E.
  - destruct (_logFile s.1); [| reflexivity].
    repeat split. now apply lookup_lt_Some in E.
  - destruct (_logFileTimeout _); [reflexivity |].
    now rewrite closeLogs_queue.
Qed.

Lemma armTimeout_queue (s : Log * Runtime) :
  _logDataQueue (armTimeout s).1 = _logDataQueue s.1.
Proof. unfold armTimeout. now case_bool_decide. Qed.


Lemma settle_Finished (fuel : nat) (io : list bool) (r : Completion unit)
    (s : Log * Runtime) :
  settle fuel io (Finished r s) = Some (r, s).
Proof. now destruct fuel. Qed.






(** The failure of the awaited operation leaves the instance and the runtime
    as they are, also when other calls are suspended. *)
Lemma resume_failure (k : Awaiting) (s : Log * Runtime) :
  ∃ e, resume k false s = Finished (Throw e) s.
Proof. destruct k; cbn; eauto. Qed.

(** ** Calls made one after the other *)







(** ** The [while] loop of [custom] ends *)

Lemma append_String (a : ascii) (s t : string) :
  String a s +:+ t = String a (s +:+ t).
Proof. reflexivity. Qed.

Lemma count_app (c : ascii) (a b : string) :
  Str.count c (a +:+ b) = (Str.count c a + Str.count c b)%nat.
Proof.
  induction a as [| x a IH]; [reflexivity |].
  rewrite append_String. cbn [Str.count]. rewrite IH. lia.
Qed.

Lemma startsWith_split (s p : string) :
  Str.startsWith s p = true -> s = p +:+ Str.drop (String.length p) s.
Proof.
  revert s. induction p as [| a p IH]; intros s H; [reflexivity |].
  destruct s as [| b s]; cbn in H; [discriminate |].
  destruct (Ascii.eqb a b) eqn:E; [| discriminate].
  apply Ascii.eqb_eq in E as ->. cbn [String.length Str.drop].
  rewrite append_String. f_equal. now apply IH.
Qed.

Lemma count_replace (c : ascii) (s p r : string) :
  Str.includes s p = true ->
  (Str.count c (Str.replace s p r) + Str.count c p
   = Str.count c s + Str.count c r)%nat.
Proof.
  induction s as [| x s IH]; intros H.
  - destruct p; [| discriminate]. cbn [Str.replace Str.startsWith String.length Str.drop].
    rewrite count_app. cbn. lia.
  - cbn [Str.includes] in H. cbn [Str.replace].
    destruct (Str.startsWith (String x s) p) eqn:E.
    + rewrite (startsWith_split _ _ E) at 2. rewrite !count_app. lia.
    + cbn in H. cbn [Str.count]. specialize (IH H). lia.
Qed.

Lemma recolour_enough (colors : list string) :
  Str.count zero (Str.join EmptyString colors) = 0%nat ->
  ∀ fuel message, (Str.count zero message < fuel)%nat ->
    ∃ text, recolour fuel message colors = Some text.
Proof.
  intros Hc. induction fuel as [| fuel IH]; intros message Hlt; [lia |].
  cbn [recolour]. destruct (Str.includes message special.normal) eqn:E; [| eauto].
  apply IH.
  pose proof (count_replace zero message special.normal
                (Str.join EmptyString colors) E) as Hr.
  rewrite Hc in Hr. change (Str.count zero special.normal) with 1%nat in Hr. lia.
Qed.




(** ** The window of [custom] *)

Lemma length_pos_nonempty (s : string) :
  (0 < String.length s)%nat <-> s ≠ EmptyString.
Proof. destruct s; cbn; split; intros H; try lia; congruence. Qed.

Lemma window_spec (relativePath : RelativePathArg) (C : Console) :
  let shown := relativePathBeingDisplayed C in
  (continuation relativePath C -> window relativePath C = (true, C))
  ∧ (¬ continuation relativePath C ->
       let C1 := if decide (shown ≠ EmptyString)
                 then set_relativePathBeingDisplayed EmptyString
                        (console_print Stdout footerPrefix C)
                 else C in
       window relativePath C
       = match labelOf relativePath with
         | Some label =>
             (true, console_print Stdout (headerPrefix +:+ label)
                      (set_relativePathBeingDisplayed label C1))
         | None => (false, C1)
         end).
Proof.
  cbn. unfold window, continuation, windowOpen. split; intros H.
  - rewrite bool_decide_eq_true_2; [reflexivity |].
    destruct H as [[-> H] | ->]; [left | now right].
    split; [reflexivity | now apply length_pos_nonempty].
  - rewrite bool_decide_eq_false_2.
    2:{ intros [[-> Hl] | Hr]; apply H.
        - left. split; [reflexivity | now apply length_pos_nonempty].
        - now right. }
    assert (Hopen : (if bool_decide (0 < String.length (relativePathBeingDisplayed C))%nat
                     then set_relativePathBeingDisplayed EmptyString
                            (console_print Stdout footerPrefix C)
                     else C)
                    = (if decide (relativePathBeingDisplayed C ≠ EmptyString)
                       then set_relativePathBeingDisplayed EmptyString
                              (console_print Stdout footerPrefix C)
                       else C)).
    { case_bool_decide as Hb; destruct (decide _) as [Hd | Hd]; try reflexivity;
        exfalso; rewrite length_pos_nonempty in Hb; tauto. }
    rewrite Hopen. clear Hopen. unfold labelOf.
    destruct relativePath as [| | label]; try reflexivity.
    case_bool_decide; destruct (decide (label = EmptyString)); try reflexivity;
      contradiction.
Qed.


(** ** What [custom] returns *)


Lemma parseMessage_cases (message : JsValue) (isError : bool) :
  message ≠ JExotic None ->
  ∃ text isError', parseMessage message isError = Normal (text, isError')
    ∧ match message with
      | JNull => text = "null"
      | JUndefined => text = "undefined"
      | JObject _ | JArray _ => text = Deno_inspect (Some 5%nat) message
      | JError _ _ => isError' = true
      | _ => ToString message = Normal text
      end.
Proof.
  intros Hne.
  destruct message as [| | b | z | s | items | props | stack m | [s |]];
    cbn; eauto.
  contradiction.
Qed.



(** ** The level methods *)


(** ** One awaited call on a settled instance *)


(** ** What [error] writes *)

Lemma append_assoc (a b c : string) : (a +:+ b) +:+ c = a +:+ (b +:+ c).
Proof.
  induction a as [| x a IH]; [reflexivity |].
  rewrite !append_String. now rewrite IH.
Qed.




(** ** Calls that do not overlap keep one handle

    The invariant of C3 holds as long as every call of [writeLog] is awaited
    before the next event, whatever the outcomes of the file operations. *)

Lemma oneHandle_ext (L L' : Log) (R R' : Runtime) :
  _logFile L' = _logFile L -> _logFileDate L' = _logFileDate L ->
  relativePath L' = relativePath L -> resources R' = resources R ->
  oneHandle (L, R) -> oneHandle (L', R').
Proof.
  unfold oneHandle, absolutePath. cbn. intros H1 H2 H3 H4.
  now rewrite H1, H2, H3, H4.
Qed.

Lemma closeLogs_releases (L : Log) (R : Runtime) (date : string) :
  oneHandle (L, R) ->
  _logFile (closeLogs (set_logFileDate date L, R)).1 = None
  ∧ resources (closeLogs (set_logFileDate date L, R)).2 = ∅.
Proof.
  destruct L. unfold oneHandle, closeLogs. cbn.
  destruct _logFile0 as [rid |]; cbn.
  - intros H. split; [reflexivity |].
    unfold FsFile_close, clearTimeout.
    destruct _logFileTimeout0; cbn; rewrite H; apply delete_singleton_eq.
  - auto.
Qed.

Lemma closeLogs_oneHandle (s : Log * Runtime) :
  oneHandle s -> oneHandle (closeLogs s).
Proof.
  destruct s as [L R]. intros H.
  destruct (closeLogs_releases L R (_logFileDate L) H) as [Hf Hr].
  assert (E : set_logFileDate (_logFileDate L) L = L) by now destruct L.
  rewrite E in Hf, Hr. unfold oneHandle. now rewrite Hf, Hr.
Qed.

Lemma drain_oneHandle (i : nat) (s : Log * Runtime) :
  oneHandle s ->
  match drain i s with
  | Suspended _ s' | Finished _ s' => oneHandle s'
  end.
Proof.
  intros H. unfold drain. destruct (_logDataQueue s.1 !! i).
  - now destruct (_logFile s.1).
  - assert (H' : oneHandle
                   (set_logFileTaken false (set_logDataQueue [] s.1), s.2))
      by (destruct s; eapply oneHandle_ext, H; reflexivity).
    cbn. destruct (_logFileTimeout s.1); [exact H' |].
    now apply closeLogs_oneHandle.
Qed.

Lemma resume_oneHandle (k : Awaiting) (ok : bool) (s : Log * Runtime) :
  oneHandle s -> awaitingPath k s ->
  match resume k ok s with
  | Suspended k' s' => oneHandle s' ∧ awaitingPath k' s'
  | Finished _ s' => oneHandle s'
  end.
Proof.
  intros H Hk. destruct k as [p | p | next rid data], ok; cbn; try assumption.
  - split; [| exact Hk]. destruct s; eapply oneHandle_ext, H; reflexivity.
  - destruct Hk as [-> Hnone].
    assert (H' : oneHandle
                   (armTimeout (set_logFile (Some (next_rid s.2)) s.1,
                                (Deno_open (absolutePath s.1) s.2).2))).
    { unfold oneHandle in H. rewrite Hnone in H.
      unfold oneHandle, armTimeout. case_bool_decide; cbn; rewrite H;
        now rewrite insert_empty. }
    pose proof (drain_oneHandle 0 _ H') as Hd.
    pose proof (drain_state 0
      (armTimeout (set_logFile (Some (next_rid s.2)) s.1,
                   (Deno_open (absolutePath s.1) s.2).2))) as Hs.
    destruct (drain 0 _) as [[| | next rid data] s' | r s'];
      try contradiction; [split; [exact Hd | exact I] | exact Hd].
  - unfold FsFile_write. destruct (resources s.2 !! rid) as [path |]; [| assumption].
    assert (H' : oneHandle
                   (s.1, {| now := now s.2;
                            files := <[path := default [] (files s.2 !! path) ++ data]>
                                       (files s.2);
                            dirs := dirs s.2; resources := resources s.2;
                            next_rid := next_rid s.2; timers := timers s.2;
                            next_timer := next_timer s.2 |}))
      by (destruct s; eapply oneHandle_ext, H; reflexivity).
    pose proof (drain_oneHandle next _ H') as Hd.
    pose proof (drain_state next
      (s.1, {| now := now s.2;
               files := <[path := default [] (files s.2 !! path) ++ data]>
                          (files s.2);
               dirs := dirs s.2; resources := resources s.2;
               next_rid := next_rid s.2; timers := timers s.2;
               next_timer := next_timer s.2 |})) as Hs.
    destruct (drain next _) as [[| | next' rid' data'] s' | r s'];
      try contradiction; [split; [exact Hd | exact I] | exact Hd].
Qed.

Lemma settle_oneHandle (fuel : nat) (io : list bool) (k : Awaiting)
    (s : Log * Runtime) (r : Completion unit) (s' : Log * Runtime) :
  oneHandle s -> awaitingPath k s ->
  settle fuel io (Suspended k s) = Some (r, s') -> oneHandle s'.
Proof.
  revert io k s. induction fuel as [| fuel IH]; intros io k s H Hk Hrun;
    [discriminate |].
  cbn in Hrun. pose proof (resume_oneHandle k (hd true io) s H Hk) as Hr.
  destruct (resume k (hd true io) s) as [k1 s1 | r1 s1].
  - destruct Hr. eapply IH; eauto.
  - rewrite settle_Finished in Hrun. now injection Hrun as _ <-.
Qed.

Lemma writeLog_await_oneHandle (io : list bool) (date : string)
    (data : Uint8Array) (s : Log * Runtime) (r : Completion unit)
    (s' : Log * Runtime) :
  oneHandle s -> writeLog_await io date data s = Some (r, s') -> oneHandle s'.
Proof.
  intros H. unfold writeLog_await, writeLog.
  assert (Hq : oneHandle (set_logDataQueue (_logDataQueue s.1 ++ [data]) s.1, s.2))
    by (destruct s; eapply oneHandle_ext, H; reflexivity).
  cbn. destruct (_logFileTaken s.1).
  - rewrite settle_Finished. now intros [= _ <-].
  - case_bool_decide as Hd.
    + destruct (closeLogs_releases _ s.2 date Hq) as [Hf Hr].
      apply settle_oneHandle.
      * unfold oneHandle. now rewrite Hf, Hr.
      * cbn. split; [reflexivity | exact Hf].
    + pose proof (drain_oneHandle 0 _ Hq) as Hdr.
      pose proof (drain_state 0
        (set_logDataQueue (_logDataQueue s.1 ++ [data]) s.1, s.2)) as Hs.
      destruct (drain 0 _) as [[| | next rid d] s1 | r1 s1]; try contradiction.
      * apply settle_oneHandle; [exact Hdr | exact I].
      * rewrite settle_Finished. now intros [= _ <-].
Qed.

Lemma fireDue_oneHandle (fuel : nat) (s : Log * Runtime) :
  oneHandle s -> oneHandle (fireDue fuel s).
Proof.
  revert s. induction fuel as [| fuel IH]; intros s H; [exact H |].
  cbn. destruct (List.find _ _) as [t |]; [| exact H].
  apply IH, closeLogs_oneHandle.
  destruct s; eapply oneHandle_ext, H; reflexivity.
Qed.

Lemma act_oneHandle (a : Action) (s : Log * Runtime) :
  oneHandle s -> oneHandle (act a s).
Proof.
  intros H. destruct a as [io date data | | dt | v]; cbn.
  - destruct (writeLog_await io date data s) as [[r s'] |] eqn:E; [| exact H].
    eapply writeLog_await_oneHandle; eauto.
  - now apply closeLogs_oneHandle.
  - apply fireDue_oneHandle.
    destruct s; eapply oneHandle_ext, H; reflexivity.
  - destruct s; eapply oneHandle_ext, H; reflexivity.
Qed.

(** The invariant of C3 for calls that do not overlap: from a new instance,
    whatever is done with every call of [writeLog] awaited, the instance
    holds at most one open file, and an open file is the one of the stored
    date. *)
Lemma awaited_calls_one_handle (filePath : string) (options : option LogOptions)
    (uuid today : string) (t0 : Z) (actions : list Action) :
  oneHandle (fold_left (λ s a, act a s) actions
               (Log_fields filePath options uuid today, boot t0)).
Proof.
  assert (H0 : oneHandle (Log_fields filePath options uuid today, boot t0))
    by reflexivity.
  revert H0. generalize (Log_fields filePath options uuid today, boot t0).
  induction actions as [| a actions IH]; intros s H; [exact H |].
  cbn. apply IH, act_oneHandle, H.
Qed.

(** * Further properties of the facade *)

(** With [shouldSaveConsole] off a level method leaves the instance and the
    runtime as they are: no directory, no file, no handle, no timeout, and
    nothing queued. *)
Theorem level_without_save (type : Level) (fuel : nat) (io : list bool)
    (timestamp today : string) (message : JsValue) (args : list string)
    (st st' : State) (r : Completion JsValue) :
  shouldSaveConsole (log st) = false ->
  Log_level type fuel io timestamp today message args st = Some (r, st') ->
  log st' = log st ∧ runtime st' = runtime st.
Proof.
  intros Hsave. unfold Log_level, createNewLog, createNewLog_try.
  rewrite Hsave. destruct (shouldConsoleLog (log st)).
  - destruct (custom _ _ _ _ _ _ _) as [[[v | e] C] |];
      intros [= _ <-]; split; reflexivity.
  - intros [= _ <-]. split; reflexivity.
Qed.



(** ** Buffers left in the queue, date rollover, idle close *)

Lemma closeLogs_files (s : Log * Runtime) :
  files (closeLogs s).2 = files s.2.
Proof.
  unfold closeLogs. destruct (_logFile s.1); [| reflexivity].
  now destruct (_logFileTimeout s.1).
Qed.

Lemma armTimeout_files (s : Log * Runtime) :
  files (armTimeout s).2 = files s.2.
Proof. unfold armTimeout. now case_bool_decide. Qed.

Lemma armTimeout_resources (s : Log * Runtime) :
  resources (armTimeout s).2 = resources s.2.
Proof. unfold armTimeout. now case_bool_decide. Qed.

Lemma armTimeout_logFile (s : Log * Runtime) :
  _logFile (armTimeout s).1 = _logFile s.1.
Proof. unfold armTimeout. now case_bool_decide. Qed.

Lemma Deno_open_files_default (path : list string) (R : Runtime)
    (p : list string) :
  default [] (files (Deno_open path R).2 !! p) = default [] (files R !! p).
Proof.
  unfold Deno_open. cbn. destruct (files R !! path) eqn:E; [reflexivity |].
  destruct (decide (p = path)) as [-> | Hne].
  - now rewrite lookup_insert_eq, E.
  - now rewrite lookup_insert_ne.
Qed.

Lemma Deno_open_files_other (path : list string) (R : Runtime)
    (p : list string) :
  p ≠ path -> files (Deno_open path R).2 !! p = files R !! p.
Proof.
  intros Hne. unfold Deno_open. cbn.
  destruct (files R !! path); [reflexivity |]. now rewrite lookup_insert_ne.
Qed.

Lemma settle_Suspended (fuel : nat) (io : list bool) (k : Awaiting)
    (s : Log * Runtime) :
  settle (S fuel) io (Suspended k s)
  = settle fuel (tail io) (resume k (hd true io) s).
Proof. reflexivity. Qed.

Lemma resume_mkdir (absPath : list string) (s : Log * Runtime) :
  resume (AwaitMkdir absPath) true s
  = Suspended (AwaitOpen absPath) (s.1, Deno_mkdir (dirOf absPath) s.2).
Proof. reflexivity. Qed.

Lemma resume_open (absPath : list string) (s : Log * Runtime) :
  resume (AwaitOpen absPath) true s
  = drain 0 (armTimeout (set_logFile (Some (next_rid s.2)) s.1,
                         (Deno_open absPath s.2).2)).
Proof. reflexivity. Qed.

(** The loop of lines 280-285 from index [i], every write succeeding: the
    entries from [i] on are appended to the file of the handle, in order, and
    the queue is emptied. *)
Lemma settle_drain (rid : nat) (path : list string) (n : nat) :
  ∀ (i fuel : nat) (s : Log * Runtime),
    _logFile s.1 = Some rid -> resources s.2 !! rid = Some path ->
    (length (_logDataQueue s.1) - i = n)%nat -> (n <= fuel)%nat ->
    ∃ s', settle fuel [] (drain i s) = Some (Normal tt, s')
      ∧ default [] (files s'.2 !! path)
        = default [] (files s.2 !! path) ++ concat (drop i (_logDataQueue s.1))
      ∧ (∀ p, p ≠ path -> files s'.2 !! p = files s.2 !! p)
      ∧ _logDataQueue s'.1 = [].
Proof.
  induction n as [| n IH]; intros i fuel s Hf Hr Hlen Hfuel.
  - unfold drain. rewrite lookup_ge_None_2 by lia. rewrite settle_Finished.
    eexists. split; [reflexivity |]. rewrite drop_ge by lia. cbn.
    rewrite app_nil_r.
    destruct (_logFileTimeout s.1); cbn; rewrite ?closeLogs_files,
      ?closeLogs_queue; cbn; auto.
  - destruct (_logDataQueue s.1 !! i) as [d |] eqn:E.
    2:{ apply lookup_ge_None_1 in E. lia. }
    unfold drain. rewrite E, Hf.
    destruct fuel as [| fuel]; [lia |].
    cbn [settle hd tail resume]. unfold FsFile_write. rewrite Hr.
    destruct (IH (S i) fuel
                (s.1, {| now := now s.2;
                         files := <[path := default [] (files s.2 !! path) ++ d]>
                                    (files s.2);
                         dirs := dirs s.2; resources := resources s.2;
                         next_rid := next_rid s.2; timers := timers s.2;
                         next_timer := next_timer s.2 |}))
      as (s' & Hrun & Hfile & Hother & Hq); cbn; try assumption; try lia.
    exists s'. split; [exact Hrun |]. cbn in Hfile, Hother.
    split; [| split; [| exact Hq]].
    + rewrite Hfile, lookup_insert_eq. cbn.
      rewrite (drop_S _ _ _ E). cbn. now rewrite app_assoc.
    + intros p Hp. rewrite (Hother p Hp). now apply lookup_insert_ne.
Qed.

(** What a failed call has left in the queue is written by the next call
    that succeeds: on an instance whose guard flag is off and whose handle,
    if any, is the only open file, an awaited call with every operation
    succeeding appends the whole queue and then its own buffer to the file
    of the date, in order, touches no other file, and empties the queue. *)
Theorem writeLog_flushes_queue (date : string) (data : Uint8Array)
    (s : Log * Runtime) :
  _logFileTaken s.1 = false -> oneHandle s ->
  ∃ s', writeLog_await [] date data s = Some (Normal tt, s')
    ∧ default [] (files s'.2 !! logPath s.1 date)
      = default [] (files s.2 !! logPath s.1 date)
        ++ concat (_logDataQueue s.1 ++ [data])
    ∧ (∀ p, p ≠ logPath s.1 date -> files s'.2 !! p = files s.2 !! p)
    ∧ _logDataQueue s'.1 = [].
Proof.
  intros Htaken Hone. unfold writeLog_await.
  destruct (decide (_logFile s.1 = None ∨ _logFileDate s.1 ≠ date)) as [Hd | Hd].
  - (* open or rotate *)
    pose proof (closeLogs_releases
                  (set_logDataQueue (_logDataQueue s.1 ++ [data]) s.1) s.2 date)
      as Hrel.
    destruct Hrel as [Hnone Hempty].
    { destruct s; eapply oneHandle_ext, Hone; reflexivity. }
    set (s1 := closeLogs
                 (set_logFileDate date
                    (set_logDataQueue (_logDataQueue s.1 ++ [data]) s.1), s.2))
      in *.
    assert (Hq1 : _logDataQueue s1.1 = _logDataQueue s.1 ++ [data])
      by (unfold s1; now rewrite closeLogs_queue).
    assert (Hpath : absolutePath s1.1 = logPath s.1 date).
    { unfold s1, absolutePath, logPath.
      now rewrite closeLogs_date, closeLogs_relativePath. }
    assert (Hfiles1 : files s1.2 = files s.2)
      by (unfold s1; now rewrite closeLogs_files).
    assert (Hw : writeLog date data s
                 = Suspended (AwaitMkdir (logPath s.1 date)) s1).
    { unfold writeLog. cbn [fst snd]. cbn [set_logDataQueue _logFileTaken
        _logFile _logFileDate]. rewrite Htaken.
      rewrite bool_decide_eq_true_2 by exact Hd. fold s1. now rewrite Hpath. }
    rewrite Hw.
    replace (length (_logDataQueue s.1) + 3)%nat
      with (S (S (S (length (_logDataQueue s.1))))) by lia.
    rewrite settle_Suspended, resume_mkdir, settle_Suspended, resume_open.
    cbn [hd tail fst snd].
    set (s2 := armTimeout
                 (set_logFile (Some (next_rid s1.2)) s1.1,
                  (Deno_open (logPath s.1 date)
                     (Deno_mkdir (dirOf (logPath s.1 date)) s1.2)).2)).
    destruct (settle_drain (next_rid s1.2) (logPath s.1 date)
                (length (_logDataQueue s.1 ++ [data])) 0
                (S (length (_logDataQueue s.1))) s2)
      as (s' & Hrun & Hfile & Hother & Hq).
    + unfold s2. now rewrite armTimeout_logFile.
    + unfold s2. rewrite armTimeout_resources. cbn. apply lookup_insert_eq.
    + unfold s2. rewrite armTimeout_queue. cbn. rewrite Hq1. lia.
    + rewrite length_app. cbn. lia.
    + exists s'. split; [exact Hrun |].
      assert (Hq2 : _logDataQueue s2.1 = _logDataQueue s.1 ++ [data])
        by (unfold s2; rewrite armTimeout_queue; exact Hq1).
      assert (Hf2 : ∀ p, default [] (files s2.2 !! p)
                         = default [] (files s.2 !! p)).
      { intros p. unfold s2. rewrite armTimeout_files. cbn [snd].
        rewrite Deno_open_files_default. cbn [Deno_mkdir files].
        now rewrite Hfiles1. }
      split; [| split; [| exact Hq]].
      * rewrite Hfile, Hq2, Hf2. reflexivity.
      * intros p Hp. rewrite (Hother p Hp). unfold s2.
        rewrite armTimeout_files. cbn [snd].
        rewrite (Deno_open_files_other _ _ _ Hp). cbn [Deno_mkdir files].
        now rewrite Hfiles1.
  - (* the handle is open for this date *)
    destruct (_logFile s.1) as [rid |] eqn:Hf; [| exfalso; apply Hd; now left].
    destruct (decide (_logFileDate s.1 = date)) as [Hdate | Hne];
      [| exfalso; apply Hd; now right].
    assert (Hres : resources s.2 !! rid = Some (logPath s.1 date)).
    { unfold oneHandle in Hone. rewrite Hf in Hone. rewrite Hone.
      unfold absolutePath, logPath. rewrite Hdate. apply lookup_singleton_eq. }
    assert (Hw : writeLog date data s
                 = drain 0 (set_logDataQueue (_logDataQueue s.1 ++ [data]) s.1,
                            s.2)).
    { unfold writeLog. cbn [fst snd]. cbn [set_logDataQueue _logFileTaken
        _logFile _logFileDate]. rewrite Htaken, Hf.
      now rewrite bool_decide_eq_false_2 by (intros [? | ?]; congruence). }
    rewrite Hw.
    destruct (settle_drain rid (logPath s.1 date)
                (length (_logDataQueue s.1 ++ [data])) 0
                (length (_logDataQueue s.1) + 3)
                (set_logDataQueue (_logDataQueue s.1 ++ [data]) s.1, s.2))
      as (s' & Hrun & Hfile & Hother & Hq); cbn; try assumption.
    + lia.
    + rewrite length_app. cbn. lia.
    + exists s'. split; [exact Hrun |]. cbn in Hfile, Hother. auto.
Qed.



(** * Further properties of the formatter *)

Lemma custom_prints (fuel : nat) (message : JsValue) (colors : list string)
    (getLine : nat) (isError : bool) (relativePath : RelativePathArg)
    (C C' : Console) (v : JsValue) :
  custom fuel message colors getLine isError relativePath C
  = Some (Normal v, C') ->
  ∃ sink body,
    C' = console_print sink
           (colorString (if (window relativePath C).1 then middlePrefix
                         else EmptyString) colors normalSuffix +:+ body)
           (window relativePath C).2.
Proof.
  unfold custom. intros H.
  destruct (parseMessage message isError) as [[text isError'] | e]; [| discriminate].
  destruct (recolour fuel text colors) as [text' |]; [| discriminate].
  destruct (fileColorOf colors) as [fileColor | e]; [| discriminate].
  destruct (window relativePath C) as [b C1]. injection H as _ <-. eauto.
Qed.

(** Two calls of [custom] in a row with the same label, a string that is not
    empty: after the first the window of the label is open, and the second
    prints its line only, with the continuation prefix; no header and no
    footer come between the two. *)
Theorem custom_same_label (fuel1 fuel2 : nat) (m1 m2 : JsValue)
    (colors1 colors2 : list string) (g1 g2 : nat) (e1 e2 : bool)
    (label : string) (C C1 C2 : Console) (v1 v2 : JsValue) :
  label ≠ EmptyString ->
  custom fuel1 m1 colors1 g1 e1 (RPstring label) C = Some (Normal v1, C1) ->
  custom fuel2 m2 colors2 g2 e2 (RPstring label) C1 = Some (Normal v2, C2) ->
  relativePathBeingDisplayed C1 = label
  ∧ ∃ sink body,
      printed C2
      = printed C1
        ++ [(sink, colorString middlePrefix colors2 normalSuffix +:+ body)]
      ∧ relativePathBeingDisplayed C2 = label.
Proof.
  intros Hlabel H1 H2.
  assert (Hopen : relativePathBeingDisplayed C1 = label).
  { destruct (custom_prints _ _ _ _ _ _ _ _ _ H1) as (sink & body & ->).
    destruct (window_spec (RPstring label) C) as [Hcont Hnew]. cbn in Hnew.
    destruct (decide (continuation (RPstring label) C)) as [Hc | Hc].
    - rewrite (Hcont Hc). cbn. destruct Hc as [[Hc _] | Hc]; congruence.
    - rewrite (Hnew Hc). unfold labelOf.
      destruct (decide (label = EmptyString)); [contradiction | reflexivity]. }
  split; [exact Hopen |].
  destruct (custom_prints _ _ _ _ _ _ _ _ _ H2) as (sink & body & ->).
  destruct (window_spec (RPstring label) C1) as [Hcont _].
  rewrite Hcont by (right; now rewrite Hopen).
  exists sink, body. cbn. auto.
Qed.

(** ** The loop of [custom] with a colour that resets *)

Lemma startsWith_app (s p t : string) :
  Str.startsWith s p = true -> Str.startsWith (s +:+ t) p = true.
Proof.
  revert s. induction p as [| a p IH]; intros s H;
    [now destruct (s +:+ t) |].
  destruct s as [| b s]; [discriminate |]. rewrite append_String. cbn in *.
  destruct (Ascii.eqb a b); [now apply IH | discriminate].
Qed.

Lemma includes_app_l (s p t : string) :
  Str.includes s p = true -> Str.includes (s +:+ t) p = true.
Proof.
  induction s as [| c s IH]; intros H.
  - destruct p; [| discriminate]. now destruct t.
  - rewrite append_String. cbn [Str.includes] in *.
    apply orb_true_iff in H as [H | H]; apply orb_true_iff.
    + left. rewrite <- append_String. now apply startsWith_app.
    + right. now apply IH.
Qed.

Lemma includes_app_r (s p t : string) :
  Str.includes t p = true -> Str.includes (s +:+ t) p = true.
Proof.
  intros H. induction s as [| c s IH]; [exact H |].
  rewrite append_String. cbn [Str.includes]. rewrite IH. apply orb_true_r.
Qed.

Lemma includes_replace (s p r : string) :
  Str.includes s p = true -> Str.includes r p = true ->
  Str.includes (Str.replace s p r) p = true.
Proof.
  intros Hs Hr. induction s as [| c s IH].
  - destruct p; [| discriminate]. cbn. now apply includes_app_l.
  - cbn [Str.replace]. destruct (Str.startsWith (String c s) p) eqn:E.
    + now apply includes_app_l.
    + cbn [Str.includes] in Hs. rewrite E in Hs. cbn in Hs.
      cbn [Str.includes]. rewrite (IH Hs). apply orb_true_r.
Qed.

Lemma recolour_never_ends (colors : list string) (message : string) :
  Str.includes (Str.join EmptyString colors) special.normal = true ->
  Str.includes message special.normal = true ->
  ∀ fuel, recolour fuel message colors = None.
Proof.
  intros Hc Hm fuel. revert message Hm.
  induction fuel as [| fuel IH]; intros message Hm; cbn [recolour]; rewrite Hm;
    [reflexivity |].
  apply IH. now apply includes_replace.
Qed.

(** The colours of [custom] may hold [terminalColor.special.normal].  Then,
    for a message whose text holds that sequence (a highlighted text, an
    [Error]), the loop of lines 425-430 puts the sequence back with every
    replacement: no number of rounds ends it, and [custom] does not
    return. *)
Theorem custom_never_returns (message : JsValue) (colors : list string)
    (isError isError' : bool) (text : string) :
  Str.includes (Str.join EmptyString colors) special.normal = true ->
  parseMessage message isError = Normal (text, isError') ->
  Str.includes text special.normal = true ->
  ∀ fuel getLine relativePath C,
    custom fuel message colors getLine isError relativePath C = None.
Proof.
  intros Hc Hp Hm fuel getLine rp C. unfold custom. rewrite Hp.
  now rewrite (recolour_never_ends colors text Hc Hm).
Qed.

(** An [Error] is such a message: its marked stack always holds the
    sequence. *)
Lemma parseMessage_Error_includes_normal (stack : option string)
    (m : string) (isError : bool) :
  ∃ text, parseMessage (JError stack m) isError = Normal (text, true)
    ∧ Str.includes text special.normal = true.
Proof.
  cbn. eexists. split; [reflexivity |].
  destruct (Str.split Str.newline (default EmptyString stack)) as [| l ls] eqn:E.
  - exfalso. clear -E. destruct (default EmptyString stack) as [| a s]; cbn in E;
      [discriminate |].
    destruct (Ascii.eqb a Str.newline); [discriminate |].
    destruct (Str.split Str.newline s); discriminate.
  - cbn [imap map Nat.eqb orb]. unfold Str.join. cbn [String.concat].
    assert (H : Str.includes
                  (colorString
                     (colorString l [background.red; foreground.white]
                        normalSuffix) [foreground.red] normalSuffix)
                  special.normal = true).
    { unfold colorString at 1. apply includes_app_r, includes_app_r.
      reflexivity. }
    destruct (map _ (imap _ ls)); [exact H |].
    now apply includes_app_l.
Qed.

(** ** A highlighted text inside a message *)

Lemma count_zero_cons (c a : ascii) (s : string) :
  Str.count c (String a s) = 0%nat -> Ascii.eqb a c = false ∧ Str.count c s = 0%nat.
Proof. cbn. destruct (Ascii.eqb a c); [discriminate | auto]. Qed.

(** Text without the escape character holds no part of the sequence
    [normal]. *)
Lemma skip_plain (a b r : string) :
  Str.count escape a = 0%nat ->
  Str.includes (a +:+ b) special.normal = Str.includes b special.normal
  ∧ Str.replace (a +:+ b) special.normal r
    = a +:+ Str.replace b special.normal r.
Proof.
  induction a as [| c a IH]; intros H; [split; reflexivity |].
  apply count_zero_cons in H as [Hc Ha]. destruct (IH Ha) as [IH1 IH2].
  rewrite !append_String.
  assert (Hs : ∀ t, Str.startsWith (String c t) special.normal = false).
  { intros t.
    change (Str.startsWith (String c t) special.normal)
      with (if Ascii.eqb escape c then Str.startsWith t "[0m" else false).
    now rewrite Ascii.eqb_sym, Hc. }
  split.
  - cbn [Str.includes]. now rewrite Hs, IH1.
  - cbn [Str.replace]. now rewrite Hs, IH2.
Qed.

Lemma skip_white (b r : string) :
  Str.includes (foreground.white +:+ b) special.normal
  = Str.includes b special.normal
  ∧ Str.replace (foreground.white +:+ b) special.normal r
    = foreground.white +:+ Str.replace b special.normal r.
Proof. split; reflexivity. Qed.

(** [highlight] inside the message of a level method: when the text holds no
    escape character, one round of the loop of [custom] replaces the reset
    at the end of the highlight by the colour of the level, so that what
    follows the highlighted text is in the colour of the line again. *)
Theorem highlight_returns_to_colour (type : Level) (text : string)
    (fuel : nat) :
  Str.count escape text = 0%nat ->
  recolour (S fuel) (highlight text) [levelColor type]
  = Some (foreground.white +:+ text +:+ levelColor type).
Proof.
  intros H. unfold highlight, colorString, normalSuffix.
  change (Str.join EmptyString [foreground.white]) with foreground.white.
  change (Str.join EmptyString [special.normal]) with special.normal.
  change (Str.join EmptyString [levelColor type]) with (levelColor type).
  cbn [recolour].
  destruct (skip_white (text +:+ special.normal) (levelColor type)) as [I1 R1].
  destruct (skip_plain text special.normal (levelColor type) H) as [I2 R2].
  rewrite I1, I2. change (Str.includes special.normal special.normal) with true.
  cbv iota. change (Str.join EmptyString [levelColor type]) with (levelColor type).
  rewrite R1, R2.
  change (Str.replace special.normal special.normal (levelColor type))
    with (levelColor type +:+ EmptyString).
  assert (E : levelColor type +:+ EmptyString = levelColor type)
    by now destruct type.
  rewrite E.
  assert (Hend : Str.includes
                   (foreground.white +:+ text +:+ levelColor type)
                   special.normal = false).
  { destruct (skip_white (text +:+ levelColor type) EmptyString) as [I3 _].
    destruct (skip_plain text (levelColor type) EmptyString H) as [I4 _].
    rewrite I3, I4. now destruct type. }
  destruct fuel; cbn [recolour]; now rewrite Hend.
Qed.

(** ** [custom] without colours *)

(** With an empty list of colours [custom] throws a [TypeError] at
    [colors[0].charAt(3)], after the message has been rendered and before
    anything is printed: the console is as it was. *)
Theorem custom_without_colours (message : JsValue) (isError : bool) :
  message ≠ JExotic None ->
  ∃ N, ∀ fuel, (N <= fuel)%nat ->
    ∀ getLine relativePath C,
      custom fuel message [] getLine isError relativePath C
      = Some (Throw (TypeError "colors[0] is undefined"), C).
Proof.
  intros Hne.
  destruct (parseMessage_cases message isError Hne) as (text & e & Hp & _).
  exists (S (Str.count zero text)). intros fuel Hle getLine rp C.
  unfold custom. rewrite Hp.
  destruct (recolour_enough [] eq_refl fuel text) as [text' ->]; [lia |].
  reflexivity.
Qed.

(** ** [valuesLog] *)

Lemma split_length (c : ascii) (s : string) :
  length (Str.split c s) = S (Str.count c s).
Proof.
  induction s as [| a s IH]; [reflexivity |]. cbn.
  destruct (Ascii.eqb a c); cbn; [now rewrite IH |].
  destruct (Str.split c s); cbn in *; [discriminate | exact IH].
Qed.

Lemma fold_print (f : string -> string) (ls : list string) (C : Console) :
  let C' := fold_left (λ C line, console_print Stdout (f line) C) ls C in
  relativePathBeingDisplayed C' = relativePathBeingDisplayed C
  ∧ printed C' = printed C ++ map (λ line, (Stdout, f line)) ls.
Proof.
  revert C. induction ls as [| l ls IH]; intros C; cbn.
  - now rewrite app_nil_r.
  - destruct (IH (console_print Stdout (f l) C)) as [H1 H2]. cbn in H1, H2.
    rewrite H1, H2. cbn. now rewrite <- app_assoc.
Qed.

(** [valuesLog] prints on the informational sink only: a title, one line for
    each line of the inspected values, and a closing line.  It leaves the
    open window of the console as it is, although its last line is drawn as
    a footer. *)
Theorem valuesLog_prints (L : Log) (C : Console) :
  relativePathBeingDisplayed (valuesLog L C) = relativePathBeingDisplayed C
  ∧ ∃ added,
      printed (valuesLog L C) = printed C ++ added
      ∧ Forall (λ p, p.1 = Stdout) added
      ∧ length added
        = (lines (Deno_inspect None (JObject (_values L))) + 3)%nat
      ∧ ∃ tag, last added
               = Some (Stdout,
                       foreground.magenta +:+ footerPrefix
                       +:+ "[END OF VALUES] " +:+ tag).
Proof.
  unfold valuesLog.
  set (title := console_print Stdout _ C).
  destruct (fold_print (λ line, foreground.magenta +:+ middlePrefix +:+ line)
              (Str.split Str.newline (Deno_inspect None (JObject (_values L))))
              title) as [H1 H2].
  cbn in H1, H2. cbn [console_print relativePathBeingDisplayed printed].
  split; [exact H1 |]. rewrite H2. unfold title. cbn [console_print printed].
  rewrite <- !app_assoc. eexists. split; [reflexivity |].
  split; [| split].
  - apply Forall_app. split; [now repeat constructor |].
    apply Forall_app. split; [| now repeat constructor].
    apply Forall_forall. intros p Hp. apply list_elem_of_fmap in Hp as (l & -> & _).
    reflexivity.
  - rewrite !length_app, length_map, split_length. unfold lines. cbn. lia.
  - eexists. rewrite app_assoc. apply last_snoc.
Qed.

(** * Properties of the constructor and of [values] *)

Lemma endsWith_refl (s : string) : Str.endsWith s s = true.
Proof. destruct s; cbn [Str.endsWith]; now rewrite String.eqb_refl. Qed.

Lemma endsWith_append (s p : string) : Str.endsWith (s +:+ p) p = true.
Proof.
  induction s as [| a s IH]; [apply endsWith_refl |].
  rewrite append_String. cbn [Str.endsWith]. rewrite IH. apply orb_true_r.
Qed.

Lemma split_not_nil (c : ascii) (s : string) : Str.split c s ≠ [].
Proof.
  intros H. pose proof (split_length c s) as Hl. now rewrite H in Hl.
Qed.

(** The last segment of the path of an instance always ends in [.log]: the
    constructor appends the extension unless the last segment of the given
    path has it already, and the path is never empty. *)
Theorem relativePath_ends_in_log (filePath : string)
    (options : option LogOptions) (uuid today : string) :
  ∃ folders file,
    relativePath (Log_fields filePath options uuid today) = folders ++ [file]
    ∧ Str.endsWith file ".log" = true
    ∧ folders ++ [file] ≠ []
    ∧ (Str.endsWith (List.last (Str.split "/" (givenPath filePath uuid))
                       EmptyString) ".log" = true ->
       folders ++ [file] = Str.split "/" (givenPath filePath uuid)).
Proof.
  unfold Log_fields, givenPath. cbn [relativePath].
  set (p := if bool_decide (String.length filePath = 0%nat)
            then "other/" +:+ uuid else filePath).
  eexists _, _. split; [reflexivity |].
  destruct (Str.endsWith (List.last (Str.split "/" p) EmptyString) ".log") eqn:E.
  - split; [exact E |]. split; [intros H; apply app_eq_nil in H as [_ H]; discriminate H |].
    intros _. symmetry. apply app_removelast_last, split_not_nil.
  - split; [apply endsWith_append |]. split; [intros H; apply app_eq_nil in H as [_ H]; discriminate H |].
    discriminate.
Qed.

Lemma append_empty (s : string) : s +:+ EmptyString = s.
Proof.
  induction s as [| a s IH]; [reflexivity |]. rewrite append_String.
  now rewrite IH.
Qed.

Lemma concat_cons_String (sep : string) (a : ascii) (h : string)
    (t : list string) :
  String.concat sep (String a h :: t) = String a (String.concat sep (h :: t)).
Proof. now destruct t. Qed.

(** [s.split(c).join(c)] is [s]. *)
Lemma join_split (c : ascii) (s : string) :
  Str.join (String c EmptyString) (Str.split c s) = s.
Proof.
  unfold Str.join. induction s as [| a s IH]; [reflexivity |].
  cbn [Str.split]. destruct (Ascii.eqb a c) eqn:E.
  - apply Ascii.eqb_eq in E as ->.
    destruct (Str.split c s) as [| h t] eqn:Es;
      [now apply split_not_nil in Es |].
    change (String.concat (String c EmptyString) (EmptyString :: h :: t))
      with (String c (String.concat (String c EmptyString) (h :: t))).
    now rewrite IH.
  - destruct (Str.split c s) as [| h t] eqn:Es;
      [now apply split_not_nil in Es |].
    rewrite concat_cons_String. now rewrite IH.
Qed.

Lemma join_snoc_append (sep : string) (l : list string) (x y : string) :
  String.concat sep (l ++ [x +:+ y]) = String.concat sep (l ++ [x]) +:+ y.
Proof.
  induction l as [| h l IH]; [reflexivity |].
  cbn [app]. destruct l as [| h' l].
  - cbn. now rewrite !append_assoc.
  - cbn [app String.concat] in *. rewrite IH. now rewrite !append_assoc.
Qed.

(** The label of the instance, which is also its path below the directory of
    the date, is the given path, followed by [.log] unless its last segment
    ends in [.log]. *)
Theorem relativePathString_of_path (filePath : string)
    (options : option LogOptions) (uuid today : string) :
  relativePathString (Log_fields filePath options uuid today)
  = givenPath filePath uuid
    +:+ (if Str.endsWith (List.last (Str.split "/" (givenPath filePath uuid))
                            EmptyString) ".log"
         then EmptyString else ".log").
Proof.
  unfold relativePathString, Log_fields, givenPath. cbn [relativePath].
  set (p := if bool_decide (String.length filePath = 0%nat)
            then "other/" +:+ uuid else filePath).
  assert (Hparts : removelast (Str.split "/" p)
                   ++ [List.last (Str.split "/" p) EmptyString]
                   = Str.split "/" p)
    by (symmetry; apply app_removelast_last, split_not_nil).
  unfold Str.join.
  destruct (Str.endsWith (List.last (Str.split "/" p) EmptyString) ".log").
  - rewrite Hparts. change (String.concat "/" (Str.split "/" p))
      with (Str.join (String "/" EmptyString) (Str.split "/" p)).
    rewrite join_split. symmetry. apply append_empty.
  - rewrite join_snoc_append, Hparts.
    change (String.concat "/" (Str.split "/" p))
      with (Str.join (String "/" EmptyString) (Str.split "/" p)).
    now rewrite join_split.
Qed.

Lemma property_assign (key k : string) (v : JsValue)
    (o : list (string * JsValue)) :
  property k (assign key v o)
  = if String.eqb key k then Some v else property k o.
Proof.
  induction o as [| [k1 v1] o IH]; cbn.
  - reflexivity.
  - destruct (String.eqb k1 key) eqn:E1; cbn.
    + apply String.eqb_eq in E1 as ->. now destruct (String.eqb key k).
    + rewrite IH. destruct (String.eqb k1 k) eqn:E2; [| reflexivity].
      apply String.eqb_eq in E2 as ->. rewrite String.eqb_sym in E1.
      now rewrite E1.
Qed.

(** The setter of [values] merges: a key of the assigned object takes the
    value it has there, every other key keeps the value it had. *)
Theorem set_values_merges (data o : list (string * JsValue)) (k : string) :
  NoDup (map fst data) ->
  property k (set_values data o)
  = match property k data with
    | Some v => Some v
    | None => property k o
    end.
Proof.
  unfold set_values. revert o.
  induction data as [| [k1 v1] data IH]; intros o Hnd; [reflexivity |].
  apply NoDup_cons in Hnd as [Hfresh Hnd]. cbn [fold_left fst snd property].
  rewrite (IH _ Hnd), property_assign.
  destruct (String.eqb k1 k) eqn:E; [| reflexivity].
  apply String.eqb_eq in E as ->.
  assert (Hnone : property k data = None).
  { clear -Hfresh. induction data as [| [k2 v2] data IH]; [reflexivity |].
    cbn in *. apply not_elem_of_cons in Hfresh as [Hne Hfresh].
    destruct (String.eqb k2 k) eqn:E; [| now apply IH].
    apply String.eqb_eq in E. congruence. }
  now rewrite Hnone.
Qed.

(** ** The arguments of a level method *)



(** ** The sink of a line, and the static methods *)

Lemma parseMessage_sink (message : JsValue) (isError isError' : bool)
    (text : string) :
  parseMessage message isError = Normal (text, isError') ->
  isError' = match message with JError _ _ => true | _ => isError end.
Proof.
  destruct message as [| | b | z | s | items | props | stack m | [s |]];
    cbn; congruence.
Qed.

(** The line of a call of [custom] that returns is the last one printed.  It
    goes to the error sink when [isError] is set and also, whatever
    [isError], when the message is an [Error]; otherwise it goes to the
    informational sink. *)
Theorem custom_sink (fuel : nat) (message : JsValue) (colors : list string)
    (getLine : nat) (isError : bool) (relativePath : RelativePathArg)
    (C C' : Console) (v : JsValue) :
  custom fuel message colors getLine isError relativePath C
  = Some (Normal v, C') ->
  ∃ line,
    last (printed C')
    = Some (if match message with JError _ _ => true | _ => isError end
            then Stderr else Stdout, line).
Proof.
  unfold custom. intros H.
  destruct (parseMessage message isError) as [[text isError'] | e] eqn:Hp;
    [| discriminate].
  apply parseMessage_sink in Hp. subst isError'.
  destruct (recolour fuel text colors) as [text' |]; [| discriminate].
  destruct (fileColorOf colors) as [fileColor | e]; [| discriminate].
  destruct (window relativePath C) as [b C1]. injection H as _ <-.
  eexists. cbn. apply last_snoc.
Qed.

(** A static method called with [usePrevLog] (the default) prints one line
    and leaves the open window as it is: it continues a window that is open
    and opens none.  Called without [usePrevLog] it leaves no window open:
    it prints the footer of a window that is open, then its line. *)
Theorem output_window (type : Level) (fuel : nat) (message : JsValue)
    (usePrevLog : bool) (C C' : Console) (v : JsValue) :
  output type fuel message usePrevLog C = Some (Normal v, C') ->
  ∃ sink line,
    if usePrevLog then
      relativePathBeingDisplayed C' = relativePathBeingDisplayed C
      ∧ printed C' = printed C ++ [(sink, line)]
    else
      relativePathBeingDisplayed C' = EmptyString
      ∧ printed C'
        = printed C
          ++ (if decide (windowOpen C) then [(Stdout, footerPrefix)] else [])
          ++ [(sink, line)].
Proof.
  unfold output. intros H.
  destruct (custom_prints _ _ _ _ _ _ _ _ _ H) as (sink & body & ->).
  destruct usePrevLog.
  - destruct (window_spec RPtrue C) as [Hcont Hnew]. cbn in Hnew.
    destruct (decide (continuation RPtrue C)) as [Hc | Hc].
    + rewrite (Hcont Hc). cbn. eauto.
    + rewrite (Hnew Hc). cbn.
      destruct (decide (relativePathBeingDisplayed C ≠ EmptyString)) as [Ho | Ho].
      * exfalso. apply Hc. now left.
      * cbn. eauto.
  - destruct (window_spec RPundefined C) as [_ Hnew]. cbn in Hnew.
    rewrite Hnew by (intros [[Hc _] | Hc]; discriminate).
    unfold windowOpen. cbn.
    destruct (decide (relativePathBeingDisplayed C ≠ EmptyString)) as [Ho | Ho];
      cbn.
    + eexists _, _. split; [reflexivity |]. now rewrite <- app_assoc.
    + eexists _, _. split; [now apply dec_stable in Ho | reflexivity].
Qed.

End Logger.

(** * The properties on concrete runs *)

(** * Properties of the directory walker *)

Section DirUtilsFacts.

Import DirUtils.

(** The entries found are appended to the list passed in. *)
Lemma _readSubDir_accumulates (listing : Listing) (path : list string)
    (filesRead : list SubDirEntry) :
  _readSubDir listing path filesRead
  = match _readSubDir listing path [] with
    | Normal found => Normal (filesRead ++ found)
    | Throw e => Throw e
    end.
Proof.
  revert path filesRead.
  induction listing as [| | f rest IH | d content IHc rest IH | o rest IH];
    intros path filesRead; cbn.
  - now rewrite app_nil_r.
  - reflexivity.
  - rewrite (IH path (filesRead ++ _)), (IH path [fileEntry path f]).
    destruct (_readSubDir rest path []); [| reflexivity].
    now rewrite app_assoc.
  - destruct (_readSubDir content (path ++ [d]) []) as [found | e];
      [| reflexivity].
    rewrite (IH path (filesRead ++ found)), (IH path found).
    destruct (_readSubDir rest path []); [| reflexivity].
    now rewrite app_assoc.
  - apply IH.
Qed.

(** [readSubDir] resolves exactly when every directory below the root, links
    not followed, can be read to its end; one directory that cannot be read
    makes the whole call fail, without a partial result. *)
Theorem readSubDir_resolves_iff_readable (listing : Listing)
    (path : list string) :
  (∃ found, readSubDir listing path = Normal found) <-> readable listing = true.
Proof.
  unfold readSubDir. revert path.
  induction listing as [| | f rest IH | d content IHc rest IH | o rest IH];
    intros path; cbn.
  - split; eauto.
  - split; [intros [found H] | intros H]; discriminate.
  - rewrite _readSubDir_accumulates, <- (IH path).
    split; intros [found H].
    + destruct (_readSubDir rest path []); [eauto | discriminate].
    + rewrite H. eauto.
  - rewrite andb_true_iff, <- (IHc (path ++ [d])), <- (IH path).
    destruct (_readSubDir content (path ++ [d]) []) as [fc | e].
    + rewrite _readSubDir_accumulates. split.
      * intros [found H]. split; [eauto |].
        destruct (_readSubDir rest path []); [eauto | discriminate].
      * intros [_ [found H]]. rewrite H. eauto.
    + split; [intros [found H]; discriminate | intros [[found H] _]; discriminate].
  - apply IH.
Qed.

(** The result has one entry for each file below the root: directories and
    links give no entry of their own, and links are not followed. *)
Theorem readSubDir_counts_files (listing : Listing) (path : list string)
    (found : list SubDirEntry) :
  readSubDir listing path = Normal found -> length found = countFiles listing.
Proof.
  unfold readSubDir. revert path found.
  induction listing as [| | f rest IH | d content IHc rest IH | o rest IH];
    intros path found; cbn.
  - now intros [= <-].
  - discriminate.
  - rewrite _readSubDir_accumulates.
    destruct (_readSubDir rest path []) as [fr | e] eqn:E; [| discriminate].
    intros [= <-]. cbn. now rewrite (IH _ _ E).
  - destruct (_readSubDir content (path ++ [d]) []) as [fc | e] eqn:Ec;
      [| discriminate].
    rewrite _readSubDir_accumulates.
    destruct (_readSubDir rest path []) as [fr | e] eqn:E; [| discriminate].
    intros [= <-]. rewrite length_app. now rewrite (IHc _ _ Ec), (IH _ _ E).
  - apply IH.
Qed.



End DirUtilsFacts.

(** * Properties of the caller tag *)

Section CallerFacts.

Import Caller.

(** The frame asked for is beyond the stack when [getLine] is the number of
    its lines or one less: the bound of line 501 lets these two indices
    through, and the tag is [[unknown]]. *)
Theorem getFileCode_beyond_stack (rootFolder stack : string) (getLine : nat) :
  let frames := length (Str.split Str.newline stack) in
  getLine = frames ∨ S getLine = frames ->
  getFileCode rootFolder (Some stack) getLine = "[unknown]".
Proof.
  intros frames H. subst frames. unfold getFileCode.
  case_bool_decide; [reflexivity |].
  rewrite lookup_ge_None_2; [reflexivity |].
  unfold frameIndex.
  destruct (Nat.ltb_spec (length (Str.split Str.newline stack)) getLine); lia.
Qed.

(** A frame with fewer than two colons has no file and line to read: the tag
    is [[unknown]]. *)
Theorem getFileCode_without_position (rootFolder stack frame : string)
    (getLine : nat) :
  let frames := Str.split Str.newline stack in
  frames !! frameIndex frames getLine = Some frame ->
  (Str.count ":" frame < 2)%nat ->
  getFileCode rootFolder (Some stack) getLine = "[unknown]".
Proof.
  intros frames Hframe Hcount. subst frames. unfold getFileCode.
  case_bool_decide; [reflexivity |]. rewrite Hframe.
  assert (Hlen : length (rev (Str.split ":" frame)) = S (Str.count ":" frame))
    by (rewrite length_rev; apply split_length).
  rewrite (lookup_ge_None_2 _ (length (rev (Str.split ":" frame)))) by lia.
  rewrite (lookup_ge_None_2 _ 2) by lia.
  match goal with |- context [if ?b then _ else _] => now destruct b end.
Qed.

Lemma split_segments (c : ascii) (s : string) :
  Forall (λ v, Str.count c v = 0%nat) (Str.split c s).
Proof.
  induction s as [| a s IH]; cbn; [now repeat constructor |].
  destruct (Ascii.eqb a c) eqn:E; [now constructor |].
  destruct (Str.split c s) as [| h t]; [now repeat constructor; cbn; rewrite E |].
  inversion IH as [| ? ? Hh Ht]; subst. constructor; [| exact Ht].
  cbn. now rewrite E.
Qed.

Lemma count_join (c : ascii) (l : list string) :
  Forall (λ v, Str.count c v = 0%nat) l ->
  Str.count c (Str.join (String c EmptyString) l) = (length l - 1)%nat.
Proof.
  unfold Str.join. induction 1 as [| x l Hx Hl IH]; [reflexivity |].
  destruct l as [| y l]; [cbn; lia |].
  change (String.concat (String c EmptyString) (x :: y :: l))
    with (x +:+ String c EmptyString
          +:+ String.concat (String c EmptyString) (y :: l)).
  rewrite !count_app, Hx, IH. cbn. rewrite Ascii.eqb_refl. lia.
Qed.

(** A frame with two colons or more gives the tag [[path:line]]: the line is
    the field before the last colon, and the path, taken from the field
    before it, has two segments at most. *)
Theorem getFileCode_position (rootFolder stack frame : string)
    (getLine : nat) :
  let frames := Str.split Str.newline stack in
  stack ≠ EmptyString ->
  frames !! frameIndex frames getLine = Some frame ->
  (2 <= Str.count ":" frame)%nat ->
  ∃ field line,
    rev (Str.split ":" frame) !! 2%nat = Some field
    ∧ rev (Str.split ":" frame) !! 1%nat = Some line
    ∧ getFileCode rootFolder (Some stack) getLine
      = "[" +:+ shortPath rootFolder field +:+ ":" +:+ line +:+ "]"
    ∧ (Str.count "/" (shortPath rootFolder field) <= 1)%nat.
Proof.
  intros frames Hstack Hframe Hcount. subst frames. unfold getFileCode.
  rewrite bool_decide_eq_false_2 by exact Hstack. rewrite Hframe.
  assert (Hlen : length (rev (Str.split ":" frame)) = S (Str.count ":" frame))
    by (rewrite length_rev; apply split_length).
  destruct (lookup_lt_is_Some_2 (rev (Str.split ":" frame)) 2) as [field Hfield];
    [lia |].
  destruct (lookup_lt_is_Some_2 (rev (Str.split ":" frame)) 1) as [line Hline];
    [lia |].
  exists field, line. split; [exact Hfield |]. split; [exact Hline |].
  replace (length (rev (Str.split ":" frame)) <? 2)%nat with false
    by (symmetry; apply Nat.ltb_ge; lia).
  rewrite Hfield, Hline. split; [reflexivity |].
  unfold shortPath.
  set (segments := filter _ _).
  assert (Hseg : Forall (λ v, Str.count "/" v = 0%nat) segments).
  { unfold segments. apply Forall_forall. intros v Hv.
    apply list_elem_of_filter in Hv as [_ Hv]. revert v Hv.
    apply Forall_forall, split_segments. }
  rewrite count_join.
  - rewrite length_rev, length_take, length_rev. lia.
  - apply Forall_rev, Forall_take, Forall_rev, Hseg.
Qed.

End CallerFacts.

Module Run.

Definition cwd : string := "/srv/app".
Definition inspect (depth : option nat) (v : JsValue) : string :=
  "{ some_value: 1 }".
Definition tag (frame : nat) : string := "[src/main.ts:7]".
Definition day : string := "2024-01-01".
Definition clock : string := "1:02:03 PM".

Definition options (timeout : Z) : option LogOptions :=
  Some {| opt_shouldConsoleLog := None; opt_shouldSaveConsole := None;
          opt_initValues := Some [("some_value", JNumber 1)];
          opt_fileTimeout := Some timeout |}.

(** [new Log("test", { initValues, fileTimeout })] in a fresh runtime. *)
Definition fresh (timeout : Z) : Sys :=
  {| inst := Log_fields "test" (options timeout) "uuid" day; rt := boot 0;
     inflight := [] |}.

Definition file : list string := [cwd; "logs"; day; "test.log"].

Definition quiet : Console :=
  {| relativePathBeingDisplayed := EmptyString; printed := [] |}.


(** One call of [writeLog] awaited with every operation succeeding: the
    directory, the file, the write. *)
Definition awaited (text : string) : list Event :=
  [CallWriteLog day (encode text); Completes 0 true; Completes 0 true;
   Completes 0 true].

(** Two calls of [writeLog], the second made before the first has been
    awaited; then the directory and the file of each. *)
Definition overlapping : list Event :=
  [CallWriteLog day (encode "a"); CallWriteLog day (encode "b");
   Completes 0 true; Completes 1 true; Completes 0 true; Completes 1 true].

(** C2, the run on which the code departs from the claim.  With
    [fileTimeout = 100] a call is awaited at time 0 and a second one at time
    60.  The second call schedules nothing: the only pending timeout is the
    one of the first call, due at 100.  At time 100, 40 ms after the last
    call, it closes the handle. *)
Lemma close_timer_not_rescheduled :
  let S1 := run cwd (awaited "a") (fresh 100) in
  let S2 := run cwd [Elapses 60; CallWriteLog day (encode "b");
                     Completes 0 true] S1 in
  let S3 := step cwd (Elapses 40) S2 in
  (timers (rt S1) = [(1%positive, 100)] ∧ _logFile (inst S1) = Some 3%nat)
  ∧ (now (rt S2) = 60 ∧ inflight S2 = [] ∧ _logFile (inst S2) = Some 3%nat
     ∧ timers (rt S2) = [(1%positive, 100)])
  ∧ (now (rt S3) = 100 ∧ _logFile (inst S3) = None
     ∧ resources (rt S3) !! 3%nat = None).
Proof. vm_compute. repeat split; reflexivity. Qed.

(** C3, the run on which the code departs from the claim.  Two overlapping
    calls both pass the guard and both open the file: two resources are open,
    and the instance refers to the second only.  Once both calls are over
    and the timeouts have fired, the first resource is still open, and each
    buffer is in the file twice. *)
Lemma overlapping_calls_open_two_handles :
  let S1 := run cwd overlapping (fresh 100) in
  let S2 := run cwd [Completes 0 true; Completes 1 true; Completes 0 true;
                     Completes 0 true; Elapses 100] S1 in
  (resources (rt S1) !! 3%nat = Some file
   ∧ resources (rt S1) !! 4%nat = Some file
   ∧ _logFile (inst S1) = Some 4%nat)
  ∧ (inflight S2 = [] ∧ timers (rt S2) = [] ∧ _logFile (inst S2) = None
     ∧ resources (rt S2) !! 3%nat = Some file
     ∧ files (rt S2) !! file = Some (encode "aabb")).
Proof. vm_compute. repeat split; reflexivity. Qed.

(** C4, against the claim as stated: after [closeLogs] on an open handle the
    date marker still holds the date. *)
Lemma closeLogs_keeps_date_marker :
  let S1 := run cwd (awaited "a") (fresh 100) in
  _logFile (inst S1) = Some 3%nat
  ∧ _logFileDate (closeLogs (inst S1, rt S1)).1 = day
  ∧ ¬ date_marker_cleared (closeLogs (inst S1, rt S1)).1.
Proof.
  vm_compute. repeat split; try reflexivity. intros H. discriminate H.
Qed.

Lemma logFileTaken_never_set_witness :
  reachable cwd (run cwd overlapping (fresh 100))
  ∧ _logFileTaken (inst (run cwd overlapping (fresh 100))) = false.
Proof.
  assert (H : reachable cwd (run cwd overlapping (fresh 100))).
  { unfold run, overlapping. cbn [fold_left].
    repeat apply reachable_step. apply reachable_new. }
  split; [exact H |].
  exact (proj1 (logFileTaken_never_set cwd _ day (encode "c") H)).
Defined.







(** ** Runs for the further properties *)

Definition silent (save console : bool) : State :=
  {| log := Log_fields "test"
              (Some {| opt_shouldConsoleLog := Some console;
                       opt_shouldSaveConsole := Some save;
                       opt_initValues := None; opt_fileTimeout := Some 0 |})
              "uuid" day;
     runtime := boot 0; console := quiet |}.

Lemma level_without_save_witness :
  shouldSaveConsole (log (silent false true)) = false
  ∧ ∃ r st',
      Log_level cwd inspect tag info 1 [] clock day (JString "Hello") []
        (silent false true) = Some (r, st')
      ∧ log st' = log (silent false true)
      ∧ runtime st' = runtime (silent false true).
Proof.
  assert (H : shouldSaveConsole (log (silent false true)) = false)
    by reflexivity.
  split; [exact H |]. eexists _, _. split; [vm_compute; reflexivity |].
  apply (level_without_save cwd inspect tag info 1 [] clock day
           (JString "Hello") [] (silent false true) _ (Normal JNull) H).
  vm_compute. reflexivity.
Defined.



(** The state after a call whose file could not be opened: the buffer is
    still queued. *)
Definition afterFailure : Log * Runtime :=
  match writeLog_await cwd [true; false] day (encode "a")
          (inst (fresh 0), rt (fresh 0)) with
  | Some (_, s) => s
  | None => (inst (fresh 0), rt (fresh 0))
  end.

Lemma writeLog_flushes_queue_witness :
  _logFileTaken afterFailure.1 = false
  ∧ oneHandle cwd afterFailure
  ∧ _logDataQueue afterFailure.1 = [encode "a"]
  ∧ ∃ s', writeLog_await cwd [] day (encode "b") afterFailure
          = Some (Normal tt, s')
      ∧ default [] (files s'.2 !! file)
        = default [] (files afterFailure.2 !! file)
          ++ concat (_logDataQueue afterFailure.1 ++ [encode "b"]).
Proof.
  assert (H1 : _logFileTaken afterFailure.1 = false) by reflexivity.
  assert (H2 : oneHandle cwd afterFailure) by (vm_compute; reflexivity).
  split; [exact H1 |]. split; [exact H2 |]. split; [reflexivity |].
  destruct (writeLog_flushes_queue cwd day (encode "b") afterFailure H1 H2)
    as (s' & Hrun & Hfile & _).
  exists s'. split; [exact Hrun | exact Hfile].
Defined.




Lemma custom_same_label_witness :
  "test.log" ≠ EmptyString
  ∧ ∃ C1 C2,
      custom cwd inspect tag 1 (JString "one") [foreground.cyan] 0 false
        (RPstring "test.log") quiet = Some (Normal JNull, C1)
      ∧ custom cwd inspect tag 1 (JString "two") [foreground.green] 0 false
          (RPstring "test.log") C1 = Some (Normal JNull, C2)
      ∧ relativePathBeingDisplayed C1 = "test.log".
Proof.
  assert (H : "test.log" ≠ EmptyString) by discriminate.
  split; [exact H |]. eexists _, _.
  split; [vm_compute; reflexivity |]. split; [vm_compute; reflexivity |].
  refine (proj1 (custom_same_label cwd inspect tag 1 1 (JString "one")
                   (JString "two") [foreground.cyan] [foreground.green] 0 0
                   false false "test.log" quiet _ _ JNull JNull H _ _));
    vm_compute; reflexivity.
Defined.

Lemma custom_never_returns_witness :
  Str.includes (Str.join EmptyString [special.normal]) special.normal = true
  ∧ parseMessage cwd inspect (JString (highlight "x")) false
    = Normal (highlight "x", false)
  ∧ Str.includes (highlight "x") special.normal = true
  ∧ custom cwd inspect tag 1000 (JString (highlight "x")) [special.normal] 0
      false RPundefined quiet = None.
Proof.
  assert (H1 : Str.includes (Str.join EmptyString [special.normal])
                 special.normal = true) by reflexivity.
  assert (H2 : parseMessage cwd inspect (JString (highlight "x")) false
               = Normal (highlight "x", false)) by reflexivity.
  assert (H3 : Str.includes (highlight "x") special.normal = true)
    by reflexivity.
  split; [exact H1 |]. split; [exact H2 |]. split; [exact H3 |].
  exact (custom_never_returns cwd inspect tag (JString (highlight "x"))
           [special.normal] false false (highlight "x") H1 H2 H3 1000%nat
           0%nat RPundefined quiet).
Defined.

Lemma highlight_returns_to_colour_witness :
  Str.count escape "x" = 0%nat
  ∧ recolour 1 (highlight "x") [levelColor info]
    = Some (foreground.white +:+ "x" +:+ levelColor info).
Proof.
  assert (H : Str.count escape "x" = 0%nat) by reflexivity.
  split; [exact H |]. exact (highlight_returns_to_colour info "x" 0 H).
Defined.

Lemma custom_without_colours_witness :
  JString "hi" ≠ JExotic None
  ∧ ∃ N, ∀ fuel, (N <= fuel)%nat ->
      ∀ getLine relativePath C,
        custom cwd inspect tag fuel (JString "hi") [] getLine false
          relativePath C
        = Some (Throw (TypeError "colors[0] is undefined"), C).
Proof.
  assert (H : JString "hi" ≠ JExotic None) by discriminate.
  split; [exact H |].
  exact (custom_without_colours cwd inspect tag (JString "hi") false H).
Defined.

Lemma set_values_merges_witness :
  NoDup (map fst [("x", JNumber 6); ("y", JNumber 2)])
  ∧ property "x"
      (set_values [("x", JNumber 6); ("y", JNumber 2)]
         [("x", JNumber 1); ("z", JNull)])
    = Some (JNumber 6).
Proof.
  assert (H : NoDup (map fst [("x", JNumber 6); ("y", JNumber 2)])).
  { cbn. apply NoDup_cons. split.
    - intros Hin. apply list_elem_of_singleton in Hin. discriminate Hin.
    - apply NoDup_singleton. }
  split; [exact H |].
  exact (set_values_merges [("x", JNumber 6); ("y", JNumber 2)]
           [("x", JNumber 1); ("z", JNull)] "x" H).
Defined.


(** The directories of the test of [sub_dir.ts]. *)
Definition tree : DirUtils.Listing :=
  DirUtils.Directory "folder1"
    (DirUtils.Directory "folder4"
       (DirUtils.File "file6.txt" DirUtils.Done)
       (DirUtils.File "file1.txt"
          (DirUtils.File "file2.txt"
             (DirUtils.File "file5.txt" DirUtils.Done))))
    (DirUtils.Directory "folder2" DirUtils.Done
       (DirUtils.Directory "folder3"
          (DirUtils.File "file4.txt" DirUtils.Done)
          (DirUtils.File "file3.txt"
             (DirUtils.Other "link" DirUtils.Done)))).

Definition listed : list DirUtils.SubDirEntry :=
  match DirUtils.readSubDir tree ["/tmp"] with
  | Normal found => found
  | Throw _ => []
  end.

Lemma readSubDir_counts_files_witness :
  DirUtils.readSubDir tree ["/tmp"] = Normal listed
  ∧ length listed = DirUtils.countFiles tree.
Proof.
  assert (H : DirUtils.readSubDir tree ["/tmp"] = Normal listed)
    by reflexivity.
  split; [exact H |].
  exact (readSubDir_counts_files tree ["/tmp"] listed H).
Defined.



(** A stack of three lines, as [new Error().stack] gives it. *)
Definition stack3 : string :=
  "Error" +:+ Str.nl
  +:+ "    at getFileCode (file:///srv/app/logger.ts:495:17)" +:+ Str.nl
  +:+ "    at main (file:///srv/app/src/main.ts:7:3)".

Lemma getFileCode_beyond_stack_witness :
  (3 = length (Str.split Str.newline stack3)
   ∨ 4 = length (Str.split Str.newline stack3))%nat
  ∧ Caller.getFileCode cwd (Some stack3) 3 = "[unknown]".
Proof.
  assert (H : (3 = length (Str.split Str.newline stack3)
               ∨ 4 = length (Str.split Str.newline stack3))%nat)
    by (left; reflexivity).
  split; [exact H |]. exact (getFileCode_beyond_stack cwd stack3 3 H).
Defined.

Lemma getFileCode_without_position_witness :
  Str.split Str.newline "Error"
  !! Caller.frameIndex (Str.split Str.newline "Error") 2 = Some "Error"
  ∧ (Str.count ":" "Error" < 2)%nat
  ∧ Caller.getFileCode cwd (Some "Error") 2 = "[unknown]".
Proof.
  assert (H1 : Str.split Str.newline "Error"
               !! Caller.frameIndex (Str.split Str.newline "Error") 2
               = Some "Error") by reflexivity.
  assert (H2 : (Str.count ":" "Error" < 2)%nat) by (cbn; lia).
  split; [exact H1 |]. split; [exact H2 |].
  exact (getFileCode_without_position cwd "Error" "Error" 2 H1 H2).
Defined.

Lemma getFileCode_position_witness :
  stack3 ≠ EmptyString
  ∧ Str.split Str.newline stack3
    !! Caller.frameIndex (Str.split Str.newline stack3) 1
    = Some "    at main (file:///srv/app/src/main.ts:7:3)"
  ∧ (2 <= Str.count ":" "    at main (file:///srv/app/src/main.ts:7:3)")%nat
  ∧ Caller.getFileCode cwd (Some stack3) 1 = "[src/main.ts:7]".
Proof.
  assert (H1 : stack3 ≠ EmptyString) by discriminate.
  assert (H2 : Str.split Str.newline stack3
               !! Caller.frameIndex (Str.split Str.newline stack3) 1
               = Some "    at main (file:///srv/app/src/main.ts:7:3)")
    by reflexivity.
  assert (H3 : (2 <= Str.count ":"
                       "    at main (file:///srv/app/src/main.ts:7:3)")%nat)
    by (cbn; lia).
  split; [exact H1 |]. split; [exact H2 |]. split; [exact H3 |].
  destruct (getFileCode_position cwd stack3 _ 1 H1 H2 H3)
    as (field & line & Hfield & Hline & Htag & _).
  cbn in Hfield, Hline. injection Hfield as <-. injection Hline as <-.
  exact Htag.
Defined.

Lemma custom_sink_witness :
  ∃ C',
    custom cwd inspect tag 5 (JError (Some "Error: boom") "boom")
      [foreground.green] 0 false RPundefined quiet = Some (Normal JNull, C')
    ∧ ∃ line, last (printed C') = Some (Stderr, line).
Proof.
  eexists. split; [vm_compute; reflexivity |].
  refine (custom_sink cwd inspect tag 5 (JError (Some "Error: boom") "boom")
            [foreground.green] 0 false RPundefined quiet _ JNull _).
  vm_compute. reflexivity.
Defined.

(** The console after one line of the window [test.log], and after a static
    [Log.warn] that follows it. *)
Definition afterOne : Console :=
  match custom cwd inspect tag 1 (JString "one") [foreground.cyan] 0 false
          (RPstring "test.log") quiet with
  | Some (_, C) => C
  | None => quiet
  end.

Definition afterWarn : Console :=
  match output cwd inspect tag warn 1 (JString "two") true afterOne with
  | Some (_, C) => C
  | None => afterOne
  end.

Lemma output_window_witness :
  output cwd inspect tag warn 1 (JString "two") true afterOne
  = Some (Normal JNull, afterWarn)
  ∧ relativePathBeingDisplayed afterOne = "test.log"
  ∧ relativePathBeingDisplayed afterWarn = relativePathBeingDisplayed afterOne.
Proof.
  assert (H : output cwd inspect tag warn 1 (JString "two") true afterOne
              = Some (Normal JNull, afterWarn)) by (vm_compute; reflexivity).
  split; [exact H |]. split; [reflexivity |].
  destruct (output_window cwd inspect tag warn 1 (JString "two") true
              afterOne afterWarn JNull H) as (sink & line & Hwin & _).
  exact Hwin.
Defined.

End Run.
